(** * ZFSBootMenu notcurses UI components: a shallow embedding

    Source: [src/tui/python/notcurses_components.py].

    Every screen class owns a render step and a key-read loop.  The
    embedding keeps both: the calls a screen makes on the notcurses
    plane (and on [time]) are recorded in a trace of [call]s, the
    events [getc_blocking] delivers are a list consumed one per read,
    and the screen object's mutable fields are threaded explicitly.

    Python [str] values are Rocq strings holding their UTF-8 bytes;
    [len] and slicing count code points (see [py_len], [py_take]). *)

From stdpp Require Import gmap strings list sorting pretty.
From Stdlib Require Import ZArith Ascii.

Open Scope Z_scope.

(** ** Python strings and values *)

(** A UTF-8 continuation byte has the form 10xxxxxx. *)
Definition is_continuation (c : ascii) : bool :=
  let n := Z.of_N (Ascii.N_of_ascii c) in
  bool_decide (Z.land n 0xC0 = 0x80).

(** [len(s)]: the number of code points of [s]. *)
Fixpoint py_len (s : string) : Z :=
  match s with
  | EmptyString => 0
  | String c r => (if is_continuation c then 0 else 1) + py_len r
  end.

(** [s[:n]]: the first [n] code points of [s]. *)
Fixpoint py_take (n : nat) (s : string) : string :=
  match s with
  | EmptyString => EmptyString
  | String c r =>
      if is_continuation c then String c (py_take n r)
      else match n with
           | O => EmptyString
           | S n' => String c (py_take n' r)
           end
  end.

(** [s * n]: repetition; empty when [n <= 0]. *)
Definition str_mul (s : string) (n : Z) : string :=
  String.concat "" (replicate (Z.to_nat n) s).

(** Format specs [{s:<w}] and [{s:>w}]: pad with spaces up to [w]
    code points, never truncate. *)
Definition ljust (s : string) (w : Z) : string := s +:+ str_mul " " (w - py_len s).
Definition rjust (s : string) (w : Z) : string := str_mul " " (w - py_len s) +:+ s.

(** [f"{n}"] for an [int]. *)
Definition str_of_int (n : Z) : string := pretty n.

Definition lower_ascii (c : ascii) : ascii :=
  let n := Ascii.nat_of_ascii c in
  if bool_decide (65 ≤ n ≤ 90)%nat then Ascii.ascii_of_nat (n + 32) else c.

(** [s.lower()].  Only the ASCII letters are mapped; the screens compare
    the result with the one-letter strings q, y and n, which no
    non-ASCII code point lower-cases to. *)
Fixpoint lower (s : string) : string :=
  match s with
  | EmptyString => EmptyString
  | String c r => String (lower_ascii c) (lower r)
  end.

(** [key in (a, b, ...)] *)
Definition key_in (key : string) (choices : list string) : bool :=
  bool_decide (key ∈ choices).

Definition LF : string := String "010"%char EmptyString.
Definition CR : string := String "013"%char EmptyString.

(** What a [show] method hands back to its caller. *)
Inductive pyval :=
| PStr (s : string)
| PList (l : list string).


Inductive exn := KeyError | IndexError | TypeError | ZeroDivisionError.

(** [l[i]] with Python's negative indices; [None] stands for IndexError. *)
Definition py_index {A} (l : list A) (i : Z) : option A :=
  let n := Z.of_nat (length l) in
  if bool_decide (0 ≤ i < n) then l !! Z.to_nat i
  else if bool_decide (- n ≤ i < 0) then l !! Z.to_nat (i + n)
  else None.

(** ** The terminal: calls made and events read *)

Inductive call :=
| erase
| render
| putstr_yx (y x : Z) (s : string)
| putstr (s : string)
| set_fg_rgb8 (r g b : Z)
| set_fg_default
| sleep (seconds : Z).

(** An input event as [wait_for_key] inspects it: the [is_release] flag
    and the [id] attribute, which may be missing. *)
Record event := { is_release : bool; ev_id : option string }.

Definition press (k : string) : event := {| is_release := false; ev_id := Some k |}.

(** One iteration of a key loop either returns, goes round again with
    the updated screen, or raises. *)
Inductive step (S : Type) :=
| Return (v : pyval)
| Continue (self : S)
| Raise (e : exn).
Arguments Return {S} v.
Arguments Continue {S} self.
Arguments Raise {S} e.

(** The result of [show] on a finite supply of events.  [Blocked] is
    [getc_blocking] waiting for an event that never comes. *)
Inductive outcome (S : Type) :=
| Returned (v : pyval) (self : S) (rest : list event) (out : list call)
| Blocked (self : S) (out : list call)
| Raised (e : exn) (self : S) (out : list call).
Arguments Returned {S} v self rest out.
Arguments Blocked {S} self out.
Arguments Raised {S} e self out.

Definition returned {S} (o : outcome S) : option pyval :=
  match o with Returned v _ _ _ => Some v | _ => None end.

Definition final {S} (o : outcome S) : S :=
  match o with Returned _ s _ _ | Blocked s _ | Raised _ s _ => s end.

Definition trace {S} (o : outcome S) : list call :=
  match o with Returned _ _ _ out | Blocked _ out | Raised _ _ out => out end.

Definition raised {S} (o : outcome S) : option exn :=
  match o with Raised e _ _ => Some e | _ => None end.

(** ** BaseScreen *)

Module BaseScreen.

(** [width] and [height] are read from the standard plane when the
    screen is constructed. *)
Record t := { width : Z; height : Z }.

Definition clear : list call := [erase].

Definition fg (color : Z) : call :=
  set_fg_rgb8 (Z.shiftr color 16) (Z.land (Z.shiftr color 8) 0xff) (Z.land color 0xff).

Definition draw_box (y x height width : Z) (title : string) : list call :=
  [putstr_yx y x ("╔" +:+ str_mul "═" (width - 2) +:+ "╗")]
  ++ flat_map (λ i, [putstr_yx (y + i) x "║"; putstr_yx (y + i) (x + width - 1) "║"])
       (seqZ 1 (height - 2))
  ++ [putstr_yx (y + height - 1) x ("╚" +:+ str_mul "═" (width - 2) +:+ "╝")]
  ++ (if bool_decide (title = "") then []
      else
        let title_str := "  " +:+ title +:+ "  " in
        let title_x := x + (width - py_len title_str) `div` 2 in
        [putstr_yx y title_x title_str]).

Definition draw_centered_text (self : t) (y : Z) (text : string) (color : Z) : list call :=
  let x := (width self - py_len text) `div` 2 in
  [fg color; putstr_yx y x text; set_fg_default].

Definition wait_for_key (ev : event) : string :=
  if is_release ev then ""
  else match ev_id ev with Some k => k | None => "" end.

End BaseScreen.

(** The shape shared by every screen's input loop:
    [while True: <draw>; key = self.wait_for_key(); <handle key>].
    Screens that draw once before the loop pass [no_redraw]. *)
Fixpoint key_loop {S : Type} (draw : S → list call * option exn)
    (handle : S → string → step S)
    (self : S) (evs : list event) (out : list call) : outcome S :=
  match draw self with
  | (cs, Some e) => Raised e self (out ++ cs)
  | (cs, None) =>
      match evs with
      | [] => Blocked self (out ++ cs)
      | ev :: rest =>
          match handle self (BaseScreen.wait_for_key ev) with
          | Return v => Returned v self rest (out ++ cs)
          | Continue self' => key_loop draw handle self' rest (out ++ cs)
          | Raise e => Raised e self (out ++ cs)
          end
      end
  end.

Definition no_redraw {S : Type} (_ : S) : list call * option exn := ([], None).

(** [a % b]; [None] stands for ZeroDivisionError.  For a non-zero divisor
    Python's result has the sign of the divisor, as [Z.modulo]'s has. *)
Definition py_mod (a b : Z) : option Z :=
  if bool_decide (b = 0) then None else Some (a `mod` b).

(** ** WelcomeScreen *)

Module WelcomeScreen.

(** The values of [system_info] entries that are modelled: None,
    booleans, integers and strings.  Other Python values (floats,
    lists, ...) are outside this type. *)
Inductive value := VNone | VBool (b : bool) | VInt (n : Z) | VStr (s : string).

Record t := { base : BaseScreen.t; system_info : gmap string value }.

Definition init (b : BaseScreen.t) (info : gmap string value) : t :=
  {| base := b; system_info := info |}.

(** [system_info.get(key, default)] *)
Definition get (info : gmap string value) (key : string) (default : value) : value :=
  match info !! key with Some v => v | None => default end.

Definition truthy (v : value) : bool :=
  match v with
  | VNone => false
  | VBool b => b
  | VInt n => negb (bool_decide (n = 0))
  | VStr s => negb (bool_decide (s = ""))
  end.

(** [f"{v}"] *)
Definition format (v : value) : string :=
  match v with
  | VNone => "None"
  | VBool true => "True"
  | VBool false => "False"
  | VInt n => str_of_int n
  | VStr s => s
  end.

(** [v >= n] against an [int]; [None] stands for TypeError. *)
Definition ge_int (v : value) (n : Z) : option bool :=
  match v with
  | VInt m => Some (bool_decide (n ≤ m)%Z)
  | VBool b => Some (bool_decide (n ≤ (if b then 1 else 0)%Z)%Z)
  | VNone | VStr _ => None
  end.

Definition draw (self : t) : list call * option exn :=
  let b := base self in
  let box_y := 6 in
  let box_height := 12 in
  let box_width := 60 in
  let box_x := (BaseScreen.width b - box_width) `div` 2 in
  let info_x := box_x + 4 in
  let is_efi := truthy (get (system_info self) "is_efi" (VBool false)) in
  let efi_str := if is_efi then "✓ Yes" else "✗ No (BIOS not supported!)" in
  let efi_color := if is_efi then 0x00ff00 else 0xff0000 in
  let ram_gb := get (system_info self) "ram_gb" (VInt 0) in
  let before_ram :=
    BaseScreen.clear
    ++ BaseScreen.draw_centered_text b 2 "╔═══════════════════════════════════════════════════════════╗" 0x00ff00
    ++ BaseScreen.draw_centered_text b 3 "║        ZFSBootMenu Installation - Notcurses TUI          ║" 0x00ff00
    ++ BaseScreen.draw_centered_text b 4 "╚═══════════════════════════════════════════════════════════╝" 0x00ff00
    ++ BaseScreen.draw_box box_y box_x box_height box_width "System Information"
    ++ [putstr_yx 8 info_x "EFI System:  "; BaseScreen.fg efi_color; putstr efi_str; set_fg_default] in
  match ge_int ram_gb 2 with
  | None => (before_ram, Some TypeError)
  | Some ram_ok =>
      let ram_color := if ram_ok then 0x00ff00 else 0xff0000 in
      let cpu_count := get (system_info self) "cpu_count" (VInt 0) in
      let distro := get (system_info self) "distro" (VStr "Unknown") in
      let version := get (system_info self) "distro_version" (VStr "") in
      (before_ram
       ++ [putstr_yx 9 info_x "RAM:         "; BaseScreen.fg ram_color;
           putstr (format ram_gb +:+ " GB"); set_fg_default]
       ++ [putstr_yx 10 info_x ("CPU Cores:   " +:+ format cpu_count)]
       ++ [putstr_yx 11 info_x ("Distro:      " +:+ format distro +:+ " " +:+ format version)]
       ++ BaseScreen.draw_centered_text b 20 "This installer will guide you through ZFS installation" 0xaaaaaa
       ++ BaseScreen.draw_centered_text b 21 "with support for RAID, compression, and system migration" 0xaaaaaa
       ++ BaseScreen.draw_centered_text b (BaseScreen.height b - 4) (str_mul "─" 60) 0x666666
       ++ BaseScreen.draw_centered_text b (BaseScreen.height b - 4 + 1) "[ENTER] Continue    [Q] Quit" 0x00ffff
       ++ [render], None)
  end.

Definition handle (self : t) (key : string) : step t :=
  if key_in key [LF; CR; " "] then Return (PStr "next")
  else if bool_decide (lower key = "q") then Return (PStr "quit")
  else Continue self.

Definition show (self : t) (evs : list event) : outcome t :=
  match draw self with
  | (cs, Some e) => Raised e self cs
  | (cs, None) => key_loop no_redraw handle self evs cs
  end.

End WelcomeScreen.

(** ** ModeSelectionScreen *)

Module ModeSelectionScreen.

Record t := {
  base : BaseScreen.t;
  selected : Z;
  modes : list (string * string * string)
}.

Definition init (b : BaseScreen.t) : t :=
  {| base := b;
     selected := 0;
     modes := [("new", "New Installation", "Install ZFS on empty drives (DESTROYS data)");
               ("existing", "Migrate System", "Copy running system to new ZFS installation")] |}.

Definition draw_mode (self : t) (box_x y : Z) (i : nat) (m : string * string * string) : list call :=
  let '(mode_id, mode_name, mode_desc) := m in
  let color := if bool_decide (Z.of_nat i = selected self) then 0x00ffff else 0xffffff in
  let prefix := if bool_decide (Z.of_nat i = selected self) then "►" else " " in
  let mode_y := y + Z.of_nat i * 4 in
  [BaseScreen.fg color; putstr_yx mode_y box_x (prefix +:+ " " +:+ mode_name); set_fg_default;
   set_fg_rgb8 0xaa 0xaa 0xaa; putstr_yx (mode_y + 1) (box_x + 4) mode_desc; set_fg_default].

Definition draw (self : t) : list call * option exn :=
  let b := base self in
  let box_width := 70 in
  let box_x := (BaseScreen.width b - box_width) `div` 2 in
  (BaseScreen.clear
   ++ BaseScreen.draw_centered_text b 2 "═══ Select Installation Mode ═══" 0x00ff00
   ++ concat (imap (draw_mode self box_x 6) (modes self))
   ++ BaseScreen.draw_centered_text b (BaseScreen.height b - 4) (str_mul "─" 60) 0x666666
   ++ BaseScreen.draw_centered_text b (BaseScreen.height b - 4 + 1)
        "[↑/↓] Navigate  [ENTER] Select  [ESC] Back  [Q] Quit" 0x00ffff
   ++ [render], None).

Definition with_selected (self : t) (i : Z) : t :=
  {| base := base self; selected := i; modes := modes self |}.

(** The branches taken on the navigation keys. *)
Definition move (self : t) (delta : Z) : step t :=
  match py_mod (selected self + delta) (Z.of_nat (length (modes self))) with
  | Some i => Continue (with_selected self i)
  | None => Raise ZeroDivisionError
  end.

Definition handle (self : t) (key : string) : step t :=
  if bool_decide (key = LF) || bool_decide (key = CR) then
    match py_index (modes self) (selected self) with
    | Some (mode_id, _, _) => Return (PStr mode_id)
    | None => Raise IndexError
    end
  else if key_in key ["j"; "down"] then move self 1
  else if key_in key ["k"; "up"] then move self (-1)
  else if bool_decide (key = "escape") then Return (PStr "back")
  else if bool_decide (lower key = "q") then Return (PStr "quit")
  else Continue self.

Definition show (self : t) (evs : list event) : outcome t :=
  key_loop draw handle self evs [].

End ModeSelectionScreen.

(** ** DeviceSelectionScreen *)

(** [sorted] compares [str] values by code point, which on UTF-8 bytes
    is the byte-wise lexicographic order. *)
Definition str_le (a b : string) : Prop := String.leb a b = true.

#[global] Instance str_le_dec : RelDecision str_le.
Proof. intros a b. unfold str_le. apply _. Defined.

Module DeviceSelectionScreen.

(** An entry of [devices]: the keys [show] reads from it. *)
Record dev_info := { size_bytes : Z; model : string; type : string }.

Record t := {
  base : BaseScreen.t;
  devices : gmap string dev_info;
  selected_drives : gset string;
  cursor : Z;
  device_list : list string
}.

Definition init (b : BaseScreen.t) (devices : gmap string dev_info)
    (selected_drives : list string) : t :=
  {| base := b;
     devices := devices;
     selected_drives := list_to_set selected_drives;
     cursor := 0;
     device_list := merge_sort str_le (elements (dom devices)) |}.

Definition format_size (size_bytes : Z) : string :=
  let gb := size_bytes `div` (1024 ^ 3) in
  if bool_decide (gb > 1024) then str_of_int (gb `div` 1024) +:+ "TB"
  else str_of_int gb +:+ "GB".

(** The body of [for i, dev in enumerate(self.device_list)], from index
    [i] on; a missing key of [devices] raises KeyError. *)
Fixpoint draw_devices (self : t) (y i : Z) (devs : list string) : list call * option exn :=
  match devs with
  | [] => ([], None)
  | dev :: rest =>
      match devices self !! dev with
      | None => ([], Some KeyError)
      | Some info =>
          let size_str := format_size (size_bytes info) in
          let color := if bool_decide (i = cursor self) then 0x00ffff else 0xffffff in
          let cursor_str := if bool_decide (i = cursor self) then "►" else " " in
          let checked := if bool_decide (dev ∈ selected_drives self) then "☑" else "☐" in
          let line :=
            cursor_str +:+ " " +:+ checked +:+ " " +:+ ljust dev 12 +:+ " ("
            +:+ rjust size_str 6 +:+ "  " +:+ ljust (py_take 20 (model info)) 20
            +:+ "  " +:+ type info +:+ ")" in
          let x := (BaseScreen.width (base self) - py_len line) `div` 2 in
          let '(cs, e) := draw_devices self y (i + 1) rest in
          ([BaseScreen.fg color; putstr_yx (y + i) x line; set_fg_default] ++ cs, e)
      end
  end.

Definition draw (self : t) : list call * option exn :=
  let b := base self in
  let title :=
    BaseScreen.clear
    ++ BaseScreen.draw_centered_text b 2 "═══ Select Target Drives ═══" 0x00ff00
    ++ BaseScreen.draw_centered_text b 3 "⚠ WARNING: Selected drives will be WIPED! ⚠" 0xff0000 in
  let '(list_calls, e) :=
    match device_list self with
    | [] => (BaseScreen.draw_centered_text b 6 "No drives detected!" 0xff0000, None)
    | _ :: _ => draw_devices self 6 0 (device_list self)
    end in
  match e with
  | Some e => (title ++ list_calls, Some e)
  | None =>
      let count_text :=
        "Selected: " +:+ str_of_int (Z.of_nat (size (selected_drives self))) +:+ " drive(s)" in
      (title ++ list_calls
       ++ BaseScreen.draw_centered_text b (BaseScreen.height b - 7) count_text 0x00ff00
       ++ BaseScreen.draw_centered_text b (BaseScreen.height b - 4) (str_mul "─" 80) 0x666666
       ++ BaseScreen.draw_centered_text b (BaseScreen.height b - 4 + 1)
            "[↑/↓] Navigate  [SPACE] Toggle  [ENTER] Continue  [ESC] Back  [Q] Quit" 0x00ffff
       ++ [render], None)
  end.

Definition with_selected_drives (self : t) (s : gset string) : t :=
  {| base := base self; devices := devices self; selected_drives := s;
     cursor := cursor self; device_list := device_list self |}.

Definition with_cursor (self : t) (c : Z) : t :=
  {| base := base self; devices := devices self; selected_drives := selected_drives self;
     cursor := c; device_list := device_list self |}.

(** The branch taken on the space key. *)
Definition toggle (self : t) : step t :=
  match device_list self with
  | [] => Continue self
  | _ :: _ =>
      match py_index (device_list self) (cursor self) with
      | None => Raise IndexError
      | Some dev =>
          if bool_decide (dev ∈ selected_drives self)
          then Continue (with_selected_drives self (selected_drives self ∖ {[dev]}))
          else Continue (with_selected_drives self (selected_drives self ∪ {[dev]}))
      end
  end.

(** The branches taken on the navigation keys. *)
Definition move (self : t) (delta : Z) : step t :=
  match device_list self with
  | [] => Continue self
  | _ :: _ =>
      match py_mod (cursor self + delta) (Z.of_nat (length (device_list self))) with
      | Some c => Continue (with_cursor self c)
      | None => Raise ZeroDivisionError
      end
  end.

(** The input half of the loop body.  [list(self.selected_drives)] lists
    the set in an order Python does not fix; [elements] is one such
    listing. *)
Definition handle (self : t) (key : string) : step t :=
  if bool_decide (key = LF) || bool_decide (key = CR) then
    if bool_decide (Z.of_nat (size (selected_drives self)) > 0)
    then Return (PList (elements (selected_drives self)))
    else Continue self
  else if bool_decide (key = " ") then toggle self
  else if key_in key ["j"; "down"] then move self 1
  else if key_in key ["k"; "up"] then move self (-1)
  else if bool_decide (key = "escape") then Return (PStr "back")
  else if bool_decide (lower key = "q") then Return (PStr "quit")
  else Continue self.

Definition show (self : t) (evs : list event) : outcome t :=
  key_loop draw handle self evs [].

End DeviceSelectionScreen.

(** ** Placeholder screens

    Each keeps the installer [state] it is given and never looks at it. *)

Module SettingsScreen.

Record t (St : Type) := { base : BaseScreen.t; state : St }.
Arguments base {St} _.
Arguments state {St} _.

Definition draw {St} (self : t St) : list call :=
  let b := base self in
  BaseScreen.clear
  ++ BaseScreen.draw_centered_text b 5 "Settings Screen - Coming Soon!" 0x00ff00
  ++ BaseScreen.draw_centered_text b (BaseScreen.height b - 3) "[ENTER] Continue  [ESC] Back" 0x00ffff
  ++ [render].

Definition handle {St} (self : t St) (key : string) : step (t St) :=
  if key_in key [LF; CR] then Return (PStr "next")
  else if bool_decide (key = "escape") then Return (PStr "back")
  else if bool_decide (lower key = "q") then Return (PStr "quit")
  else Continue self.

Definition show {St} (self : t St) (evs : list event) : outcome (t St) :=
  key_loop no_redraw handle self evs (draw self).

End SettingsScreen.

Module ValidationScreen.

Record t (St Info : Type) := { base : BaseScreen.t; state : St; system_info : Info }.
Arguments base {St Info} _.
Arguments state {St Info} _.
Arguments system_info {St Info} _.

Definition draw {St Info} (self : t St Info) : list call :=
  let b := base self in
  BaseScreen.clear
  ++ BaseScreen.draw_centered_text b 5 "Validation Screen - Coming Soon!" 0x00ff00
  ++ BaseScreen.draw_centered_text b (BaseScreen.height b - 3) "[ENTER] Continue  [ESC] Back" 0x00ffff
  ++ [render].

Definition handle {St Info} (self : t St Info) (key : string) : step (t St Info) :=
  if key_in key [LF; CR] then Return (PStr "valid")
  else if bool_decide (key = "escape") then Return (PStr "back")
  else if bool_decide (lower key = "q") then Return (PStr "quit")
  else Continue self.

Definition show {St Info} (self : t St Info) (evs : list event) : outcome (t St Info) :=
  key_loop no_redraw handle self evs (draw self).

End ValidationScreen.

Module ConfirmationScreen.

Record t (St : Type) := { base : BaseScreen.t; state : St }.
Arguments base {St} _.
Arguments state {St} _.

Definition draw {St} (self : t St) : list call :=
  let b := base self in
  BaseScreen.clear
  ++ BaseScreen.draw_centered_text b 5 "Confirmation Screen - Coming Soon!" 0x00ff00
  ++ BaseScreen.draw_centered_text b (BaseScreen.height b - 3) "[Y] Proceed  [N] Back" 0x00ffff
  ++ [render].

Definition handle {St} (self : t St) (key : string) : step (t St) :=
  if bool_decide (lower key = "y") then Return (PStr "proceed")
  else if bool_decide (lower key = "n") || bool_decide (key = "escape") then Return (PStr "back")
  else if bool_decide (lower key = "q") then Return (PStr "quit")
  else Continue self.

Definition show {St} (self : t St) (evs : list event) : outcome (t St) :=
  key_loop no_redraw handle self evs (draw self).

End ConfirmationScreen.

Module InstallationScreen.

Record t (St : Type) := { base : BaseScreen.t; state : St }.
Arguments base {St} _.
Arguments state {St} _.

Definition show {St} (self : t St) (evs : list event) : outcome (t St) :=
  let b := base self in
  Returned (PStr "success") self evs
    (BaseScreen.clear
     ++ BaseScreen.draw_centered_text b 5 "Installation Screen - Coming Soon!" 0x00ff00
     ++ BaseScreen.draw_centered_text b 7 "Simulating installation..." 0xffff00
     ++ [render]
     ++ [sleep 3]).

End InstallationScreen.

Module CompletionScreen.

Record t (St : Type) := { base : BaseScreen.t; state : St }.
Arguments base {St} _.
Arguments state {St} _.

Definition draw {St} (self : t St) : list call :=
  let b := base self in
  BaseScreen.clear
  ++ BaseScreen.draw_centered_text b 5 "✓ Installation Complete!" 0x00ff00
  ++ BaseScreen.draw_centered_text b 7 "Your system is ready to reboot" 0xffffff
  ++ BaseScreen.draw_centered_text b (BaseScreen.height b - 3) "[ENTER] Exit" 0x00ffff
  ++ [render].

(** The key read is discarded. *)
Definition show {St} (self : t St) (evs : list event) : outcome (t St) :=
  match evs with
  | [] => Blocked self (draw self)
  | ev :: rest =>
      let _ := BaseScreen.wait_for_key ev in
      Returned (PStr "quit") self rest (draw self)
  end.

End CompletionScreen.

(** ** The caller's view: any screen, shown, yields a value *)

Inductive screen (St Info : Type) :=
| Welcome (s : WelcomeScreen.t)
| ModeSelection (s : ModeSelectionScreen.t)
| DeviceSelection (s : DeviceSelectionScreen.t)
| Settings (s : SettingsScreen.t St)
| Validation (s : ValidationScreen.t St Info)
| Confirmation (s : ConfirmationScreen.t St)
| Installation (s : InstallationScreen.t St)
| Completion (s : CompletionScreen.t St).
Arguments Welcome {St Info} s.
Arguments ModeSelection {St Info} s.
Arguments DeviceSelection {St Info} s.
Arguments Settings {St Info} s.
Arguments Validation {St Info} s.
Arguments Confirmation {St Info} s.
Arguments Installation {St Info} s.
Arguments Completion {St Info} s.

(** [screen.show()] as the caller sees it: the value returned, if any. *)
Definition show {St Info} (s : screen St Info) (evs : list event) : option pyval :=
  match s with
  | Welcome s => returned (WelcomeScreen.show s evs)
  | ModeSelection s => returned (ModeSelectionScreen.show s evs)
  | DeviceSelection s => returned (DeviceSelectionScreen.show s evs)
  | Settings s => returned (SettingsScreen.show s evs)
  | Validation s => returned (ValidationScreen.show s evs)
  | Confirmation s => returned (ConfirmationScreen.show s evs)
  | Installation s => returned (InstallationScreen.show s evs)
  | Completion s => returned (CompletionScreen.show s evs)
  end.

(** ** Invariants of the device screen's loop

    Relative to the [devices] mapping and the initial selection the
    screen was constructed with: the mapping is never replaced, the
    device list names exactly its keys, the selection only ever gains
    known devices, and the cursor indexes the list when there is one. *)
Definition device_inv (devs : gmap string DeviceSelectionScreen.dev_info)
    (sel0 : gset string) (s : DeviceSelectionScreen.t) : Prop :=
  DeviceSelectionScreen.devices s = devs
  ∧ (∀ d, d ∈ DeviceSelectionScreen.device_list s ↔ d ∈ dom devs)
  ∧ DeviceSelectionScreen.selected_drives s ⊆ sel0 ∪ dom devs
  ∧ (DeviceSelectionScreen.device_list s ≠ [] →
     0 ≤ DeviceSelectionScreen.cursor s
       < Z.of_nat (length (DeviceSelectionScreen.device_list s))).

(** The cursor of the mode screen indexes its list of modes. *)
Definition mode_inv (s : ModeSelectionScreen.t) : Prop :=
  0 ≤ ModeSelectionScreen.selected s < Z.of_nat (length (ModeSelectionScreen.modes s)).

(** ** Reachable states

    The states a screen object can be in: those [show] leaves it in
    after some sequence of events, starting from the constructor. *)
Definition mode_reachable (s : ModeSelectionScreen.t) : Prop :=
  ∃ b evs, s = final (ModeSelectionScreen.show (ModeSelectionScreen.init b) evs).

Definition device_reachable (s : DeviceSelectionScreen.t) : Prop :=
  ∃ b devs sel evs,
    s = final (DeviceSelectionScreen.show (DeviceSelectionScreen.init b devs sel) evs).

(** ** Sample inputs *)

Definition term_80x24 : BaseScreen.t := {| BaseScreen.width := 80; BaseScreen.height := 24 |}.

Definition two_drives : gmap string DeviceSelectionScreen.dev_info :=
  {[ "sda" := {| DeviceSelectionScreen.size_bytes := 500 * 1024 ^ 3;
                 DeviceSelectionScreen.model := "WDC WD5000";
                 DeviceSelectionScreen.type := "hdd" |};
     "sdb" := {| DeviceSelectionScreen.size_bytes := 2048 * 1024 ^ 3;
                 DeviceSelectionScreen.model := "Samsung SSD 870";
                 DeviceSelectionScreen.type := "ssd" |} ]}.

#[global] Instance str_le_total : Total str_le.
Proof. intros a b. apply String.leb_total. Qed.

(** ** Counting calls in a trace *)

Definition is_render (c : call) : bool :=
  match c with render => true | _ => false end.

Definition is_erase (c : call) : bool :=
  match c with erase => true | _ => false end.

Fixpoint count_calls (p : call → bool) (out : list call) : nat :=
  match out with
  | [] => 0
  | c :: out' => (if p c then 1 else 0) + count_calls p out'
  end.

(** * Properties *)

(** ** The key loop *)

Section key_loop_facts.
Context {S : Type} (draw : S → list call * option exn) (handle : S → string → step S).
Context (P : S → Prop).
Hypothesis P_step : ∀ s k s', P s → handle s k = Continue s' → P s'.

(** An invariant of the handler holds of the screen whenever the loop
    stops, however it stops. *)
Lemma key_loop_final evs : ∀ s out, P s → P (final (key_loop draw handle s evs out)).
Proof.
  induction evs as [|ev rest IH]; intros s out Hs; simpl.
  - destruct (draw s) as [cs [e|]]; exact Hs.
  - destruct (draw s) as [cs [e|]]; [exact Hs|].
    destruct (handle s (BaseScreen.wait_for_key ev)) as [v|s'|e] eqn:Hh; simpl; eauto.
Qed.

(** Whatever the loop returns was returned by the handler in a state
    satisfying the invariant. *)
Lemma key_loop_returned (Q : pyval → Prop) :
  (∀ s k v, P s → handle s k = Return v → Q v) →
  ∀ evs s out v, P s → returned (key_loop draw handle s evs out) = Some v → Q v.
Proof.
  intros HQ. induction evs as [|ev rest IH]; intros s out v Hs; simpl.
  - destruct (draw s) as [cs [e|]]; discriminate.
  - destruct (draw s) as [cs [e|]]; [discriminate|].
    destruct (handle s (BaseScreen.wait_for_key ev)) as [w|s'|e] eqn:Hh; simpl.
    + intros [= <-]. eauto.
    + eauto.
    + discriminate.
Qed.

(** If neither drawing nor handling raises under the invariant, the
    loop does not raise. *)
Lemma key_loop_raised :
  (∀ s, P s → (draw s).2 = None) →
  (∀ s k e, P s → handle s k ≠ Raise e) →
  ∀ evs s out, P s → raised (key_loop draw handle s evs out) = None.
Proof.
  intros Hd Hh. induction evs as [|ev rest IH]; intros s out Hs; simpl.
  - specialize (Hd s Hs). destruct (draw s) as [cs [e|]]; [discriminate|done].
  - specialize (Hd s Hs). destruct (draw s) as [cs [e|]]; [discriminate|].
    destruct (handle s (BaseScreen.wait_for_key ev)) as [w|s'|e] eqn:Heq; simpl.
    + done.
    + eauto.
    + by apply Hh in Heq.
Qed.

End key_loop_facts.

(** ** Python indexing and remainder *)

Lemma py_index_elem {A} (l : list A) i x : py_index l i = Some x → x ∈ l.
Proof.
  unfold py_index. repeat case_bool_decide; try discriminate;
    intros Hx; eapply list_elem_of_lookup_2; exact Hx.
Qed.

Lemma py_index_in_bounds {A} (l : list A) i :
  0 ≤ i < Z.of_nat (length l) → py_index l i = l !! Z.to_nat i ∧ is_Some (py_index l i).
Proof.
  intros Hi. unfold py_index. rewrite bool_decide_eq_true_2 by done.
  split; [done|]. apply lookup_lt_is_Some. lia.
Qed.

Lemma py_mod_bounds a n : 0 < n → ∃ r, py_mod a n = Some r ∧ 0 ≤ r < n ∧ r = a `mod` n.
Proof.
  intros Hn. unfold py_mod. rewrite bool_decide_eq_false_2 by lia.
  eexists; split; [done|]. split; [|done]. by apply Z.mod_pos_bound.
Qed.

(** ** DeviceSelectionScreen: the invariant of the key loop *)

Lemma device_list_init b devs sel d :
  d ∈ DeviceSelectionScreen.device_list (DeviceSelectionScreen.init b devs sel) ↔ d ∈ dom devs.
Proof. simpl. rewrite merge_sort_Permutation. apply elem_of_elements. Qed.

Lemma device_list_init_nil b devs sel :
  DeviceSelectionScreen.device_list (DeviceSelectionScreen.init b devs sel) = [] ↔ devs = ∅.
Proof.
  split.
  - intros Hnil. apply dom_empty_iff_L. apply set_eq. intros d.
    rewrite <- (device_list_init b devs sel), Hnil. set_solver.
  - intros ->. simpl. rewrite dom_empty_L, elements_empty. reflexivity.
Qed.

Lemma device_inv_init b devs sel :
  device_inv devs (list_to_set sel) (DeviceSelectionScreen.init b devs sel).
Proof.
  split; [done|]. split; [apply device_list_init|]. split; [set_solver|].
  intros Hne. simpl in *. split; [lia|].
  destruct (merge_sort str_le (elements (dom devs))); [done|simpl; lia].
Qed.

Lemma device_inv_step devs sel0 s k s' :
  device_inv devs sel0 s → DeviceSelectionScreen.handle s k = Continue s' →
  device_inv devs sel0 s'.
Proof.
  intros Hinv. pose proof Hinv as (Hd & Hl & Hs & Hc).
  unfold DeviceSelectionScreen.handle.
  repeat (case_match; try discriminate); try (intros [= <-]; exact Hinv).
  - (* space *)
    unfold DeviceSelectionScreen.toggle.
    destruct (DeviceSelectionScreen.device_list s) as [|d0 l] eqn:El;
      [intros [= <-]; exact Hinv|].
    destruct (py_index (d0 :: l) (DeviceSelectionScreen.cursor s)) as [dev|] eqn:Ei;
      [|discriminate].
    apply py_index_elem in Ei. apply Hl in Ei.
    destruct (bool_decide (dev ∈ DeviceSelectionScreen.selected_drives s));
      intros [= <-]; unfold device_inv; simpl; rewrite El;
      (split; [done|]); (split; [done|]); (split; [|done]); intros d.
    + intros [Hin _]%elem_of_difference. by apply Hs.
    + intros [Hin|Hin]%elem_of_union; [by apply Hs|].
      apply elem_of_singleton in Hin. subst d. apply elem_of_union. by right.
  - (* down *)
    unfold DeviceSelectionScreen.move.
    destruct (DeviceSelectionScreen.device_list s) as [|d0 l] eqn:El;
      [intros [= <-]; exact Hinv|].
    destruct (py_mod_bounds (DeviceSelectionScreen.cursor s + 1) (Z.of_nat (length (d0 :: l))))
      as (r & -> & Hr & _); [simpl; lia|].
    intros [= <-]. unfold device_inv; simpl; rewrite El. done.
  - (* up *)
    unfold DeviceSelectionScreen.move.
    destruct (DeviceSelectionScreen.device_list s) as [|d0 l] eqn:El;
      [intros [= <-]; exact Hinv|].
    destruct (py_mod_bounds (DeviceSelectionScreen.cursor s + -1) (Z.of_nat (length (d0 :: l))))
      as (r & -> & Hr & _); [simpl; lia|].
    intros [= <-]. unfold device_inv; simpl; rewrite El. done.
Qed.

Lemma draw_devices_ok self y devs :
  (∀ d, d ∈ devs → d ∈ dom (DeviceSelectionScreen.devices self)) →
  ∀ i, (DeviceSelectionScreen.draw_devices self y i devs).2 = None.
Proof.
  induction devs as [|dev rest IH]; intros Hin i; simpl; [done|].
  assert (Hdev : dev ∈ dom (DeviceSelectionScreen.devices self)) by (apply Hin; left).
  apply elem_of_dom in Hdev as [info ->].
  specialize (IH (λ d Hd, Hin d (list_elem_of_further _ _ _ Hd)) (i + 1)).
  destruct (DeviceSelectionScreen.draw_devices self y (i + 1) rest) as [cs e].
  exact IH.
Qed.

Lemma device_inv_draw devs sel0 s :
  device_inv devs sel0 s → (DeviceSelectionScreen.draw s).2 = None.
Proof.
  intros (Hd & Hl & _ & _). unfold DeviceSelectionScreen.draw.
  destruct (DeviceSelectionScreen.device_list s) as [|d0 l] eqn:El; [done|].
  pose proof (draw_devices_ok s 6 (d0 :: l)) as Hok.
  rewrite Hd in Hok. specialize (Hok (λ d Hin, proj1 (Hl d) Hin) 0).
  destruct (DeviceSelectionScreen.draw_devices s 6 0 (d0 :: l)) as [cs e].
  simpl in Hok. by subst e.
Qed.

Lemma device_inv_no_raise devs sel0 s k e :
  device_inv devs sel0 s → DeviceSelectionScreen.handle s k ≠ Raise e.
Proof.
  intros (_ & _ & _ & Hc). unfold DeviceSelectionScreen.handle.
  repeat (case_match; try discriminate).
  - unfold DeviceSelectionScreen.toggle.
    destruct (DeviceSelectionScreen.device_list s) as [|d0 l] eqn:El; [discriminate|].
    destruct (py_index_in_bounds (d0 :: l) (DeviceSelectionScreen.cursor s)) as [_ [dev ->]];
      [by apply Hc|].
    destruct (bool_decide (dev ∈ DeviceSelectionScreen.selected_drives s)); discriminate.
  - unfold DeviceSelectionScreen.move.
    destruct (DeviceSelectionScreen.device_list s) as [|d0 l] eqn:El; [discriminate|].
    destruct (py_mod_bounds (DeviceSelectionScreen.cursor s + 1) (Z.of_nat (length (d0 :: l))))
      as (r & -> & _); [simpl; lia|discriminate].
  - unfold DeviceSelectionScreen.move.
    destruct (DeviceSelectionScreen.device_list s) as [|d0 l] eqn:El; [discriminate|].
    destruct (py_mod_bounds (DeviceSelectionScreen.cursor s + -1) (Z.of_nat (length (d0 :: l))))
      as (r & -> & _); [simpl; lia|discriminate].
Qed.

Lemma device_show_inv b devs sel evs :
  device_inv devs (list_to_set sel)
    (final (DeviceSelectionScreen.show (DeviceSelectionScreen.init b devs sel) evs)).
Proof.
  unfold DeviceSelectionScreen.show.
  apply (key_loop_final _ _ (device_inv devs (list_to_set sel)));
    [apply device_inv_step | apply device_inv_init].
Qed.

Lemma device_show_no_raise b devs sel evs :
  raised (DeviceSelectionScreen.show (DeviceSelectionScreen.init b devs sel) evs) = None.
Proof.
  unfold DeviceSelectionScreen.show.
  apply (key_loop_raised _ _ (device_inv devs (list_to_set sel))).
  - apply device_inv_step.
  - apply device_inv_draw.
  - intros s k e. apply device_inv_no_raise.
  - apply device_inv_init.
Qed.

(** ** ModeSelectionScreen: the invariant of the key loop *)

Lemma mode_inv_init b : mode_inv (ModeSelectionScreen.init b).
Proof. unfold mode_inv. simpl. lia. Qed.

Lemma mode_inv_step s k s' :
  mode_inv s → ModeSelectionScreen.handle s k = Continue s' → mode_inv s'.
Proof.
  unfold mode_inv. intros Hs. unfold ModeSelectionScreen.handle, ModeSelectionScreen.move.
  repeat (case_match; try discriminate); try (intros [= <-]; exact Hs).
  - destruct (py_mod_bounds (ModeSelectionScreen.selected s + 1)
                (Z.of_nat (length (ModeSelectionScreen.modes s)))) as (r & Hr & Hb & _); [lia|].
    intros [= <-]. simpl. congruence.
  - destruct (py_mod_bounds (ModeSelectionScreen.selected s + -1)
                (Z.of_nat (length (ModeSelectionScreen.modes s)))) as (r & Hr & Hb & _); [lia|].
    intros [= <-]. simpl. congruence.
Qed.

Lemma mode_inv_no_raise s k e :
  mode_inv s → ModeSelectionScreen.handle s k ≠ Raise e.
Proof.
  unfold mode_inv. intros Hs. unfold ModeSelectionScreen.handle, ModeSelectionScreen.move.
  destruct (py_index_in_bounds (ModeSelectionScreen.modes s) (ModeSelectionScreen.selected s) Hs)
    as [_ [[[mode_id name] desc] Hi]].
  destruct (py_mod_bounds (ModeSelectionScreen.selected s + 1)
              (Z.of_nat (length (ModeSelectionScreen.modes s)))) as (r1 & Hr1 & _); [lia|].
  destruct (py_mod_bounds (ModeSelectionScreen.selected s + -1)
              (Z.of_nat (length (ModeSelectionScreen.modes s)))) as (r2 & Hr2 & _); [lia|].
  rewrite Hi, Hr1, Hr2. repeat (case_match; try discriminate).
Qed.

(** ** ENTER on the device screen *)

Lemma device_enter_step
    (self : DeviceSelectionScreen.t) (ev : event) (rest : list event) :
  BaseScreen.wait_for_key ev = LF ∨ BaseScreen.wait_for_key ev = CR →
  (DeviceSelectionScreen.draw self).2 = None →
  (DeviceSelectionScreen.selected_drives self = ∅ →
     DeviceSelectionScreen.show self (ev :: rest)
     = key_loop DeviceSelectionScreen.draw DeviceSelectionScreen.handle self rest
         (DeviceSelectionScreen.draw self).1
     ∧ returned (DeviceSelectionScreen.show self [ev]) = None
     ∧ final (DeviceSelectionScreen.show self [ev]) = self)
  ∧ (DeviceSelectionScreen.selected_drives self ≠ ∅ →
     DeviceSelectionScreen.show self (ev :: rest)
     = Returned (PList (elements (DeviceSelectionScreen.selected_drives self))) self rest
         (DeviceSelectionScreen.draw self).1
     ∧ elements (DeviceSelectionScreen.selected_drives self) ≠ []).
Proof.
  intros Hkey Hdraw.
  assert (Hh : DeviceSelectionScreen.handle self (BaseScreen.wait_for_key ev)
               = if bool_decide (Z.of_nat (size (DeviceSelectionScreen.selected_drives self)) > 0)
                 then Return (PList (elements (DeviceSelectionScreen.selected_drives self)))
                 else Continue self).
  { unfold DeviceSelectionScreen.handle.
    destruct Hkey as [-> | ->]; reflexivity. }
  unfold DeviceSelectionScreen.show. simpl.
  destruct (DeviceSelectionScreen.draw self) as [cs e] eqn:Ed. simpl in Hdraw. subst e.
  rewrite Hh. split.
  - intros Hempty. rewrite Hempty, size_empty. simpl. by rewrite Ed.
  - intros Hne. rewrite bool_decide_eq_true_2.
    + split; [done|]. by rewrite elements_empty_iff, leibniz_equiv_iff.
    + assert (size (DeviceSelectionScreen.selected_drives self) ≠ 0%nat); [|lia].
      rewrite size_non_empty_iff. by rewrite leibniz_equiv_iff.
Qed.

Lemma device_reachable_inv s :
  device_reachable s → ∃ sel0, device_inv (DeviceSelectionScreen.devices s) sel0 s.
Proof.
  intros (b & devs & sel & evs & ->). exists (list_to_set sel).
  pose proof (device_show_inv b devs sel evs) as Hinv.
  by rewrite (proj1 Hinv).
Qed.

(** C1.  On the device screen an ENTER key (line feed or carriage
    return) makes [show] return the list of selected drives exactly when
    the selection set is non-empty.  With an empty selection the press
    is swallowed: [show] goes round its loop with the screen unchanged,
    draws again and reads the next event, and with no further event it
    has not returned. *)
Theorem device_enter_needs_selection
    (self : DeviceSelectionScreen.t) (ev : event) (rest : list event) :
  device_reachable self →
  BaseScreen.wait_for_key ev = LF ∨ BaseScreen.wait_for_key ev = CR →
  (DeviceSelectionScreen.selected_drives self = ∅ →
     DeviceSelectionScreen.show self (ev :: rest)
     = key_loop DeviceSelectionScreen.draw DeviceSelectionScreen.handle self rest
         (DeviceSelectionScreen.draw self).1
     ∧ returned (DeviceSelectionScreen.show self [ev]) = None
     ∧ final (DeviceSelectionScreen.show self [ev]) = self)
  ∧ (DeviceSelectionScreen.selected_drives self ≠ ∅ →
     DeviceSelectionScreen.show self (ev :: rest)
     = Returned (PList (elements (DeviceSelectionScreen.selected_drives self))) self rest
         (DeviceSelectionScreen.draw self).1
     ∧ elements (DeviceSelectionScreen.selected_drives self) ≠ []).
Proof.
  intros [sel0 Hinv]%device_reachable_inv Hkey.
  apply device_enter_step; [exact Hkey | by eapply device_inv_draw].
Qed.

Lemma device_enter_needs_selection_witness :
  let self := DeviceSelectionScreen.init term_80x24 two_drives [] in
  device_reachable self
  ∧ (BaseScreen.wait_for_key (press LF) = LF ∨ BaseScreen.wait_for_key (press LF) = CR)
  ∧ returned (DeviceSelectionScreen.show self [press LF]) = None.
Proof.
  intros self.
  assert (Hreach : device_reachable self).
  { exists term_80x24, two_drives, [], []. vm_compute. reflexivity. }
  assert (Hkey : BaseScreen.wait_for_key (press LF) = LF
                 ∨ BaseScreen.wait_for_key (press LF) = CR) by (left; reflexivity).
  split; [exact Hreach|]. split; [exact Hkey|].
  destruct (device_enter_needs_selection self (press LF) [] Hreach Hkey) as [Hempty _].
  apply Hempty. reflexivity.
Defined.

(** ** The selection set and the known devices *)

Lemma device_selection_bound b devs sel evs :
  DeviceSelectionScreen.selected_drives
    (final (DeviceSelectionScreen.show (DeviceSelectionScreen.init b devs sel) evs))
  ⊆ list_to_set sel ∪ dom devs.
Proof. apply (device_show_inv b devs sel evs). Qed.

(** C2, as the code has it.  The constructor takes the initial
    [selected_drives] as given; show only ever adds the device under the
    cursor, which is a key of [devices].  So if the initial list names
    known devices only, the selection set is a subset of the keys of
    [devices] after any sequence of key events. *)
Theorem device_selection_stays_known b devs (sel : list string) evs :
  (∀ d, d ∈ sel → d ∈ dom devs) →
  DeviceSelectionScreen.selected_drives
    (final (DeviceSelectionScreen.show (DeviceSelectionScreen.init b devs sel) evs))
  ⊆ dom devs.
Proof.
  intros Hsel d Hd. apply device_selection_bound in Hd.
  apply elem_of_union in Hd as [Hd|Hd]; [|done].
  apply Hsel. by apply elem_of_list_to_set in Hd.
Qed.

Lemma device_selection_stays_known_witness :
  (∀ d, d ∈ ["sda"] → d ∈ dom two_drives)
  ∧ DeviceSelectionScreen.selected_drives
      (final (DeviceSelectionScreen.show
                (DeviceSelectionScreen.init term_80x24 two_drives ["sda"])
                [press " "; press "j"; press " "]))
    ⊆ dom two_drives.
Proof.
  assert (Hsel : ∀ d, d ∈ ["sda"] → d ∈ dom two_drives).
  { intros d Hd. apply list_elem_of_singleton in Hd. subst d.
    apply elem_of_dom. eexists. reflexivity. }
  split; [exact Hsel|].
  apply (device_selection_stays_known term_80x24 two_drives ["sda"] _ Hsel).
Defined.

(** C2 as stated fails: an initial selection naming an unknown drive is
    kept as it is. *)
Lemma device_selection_unknown_initial :
  ¬ (∀ b devs (sel : list string) evs,
       DeviceSelectionScreen.selected_drives
         (final (DeviceSelectionScreen.show (DeviceSelectionScreen.init b devs sel) evs))
       ⊆ dom devs).
Proof.
  intros H. specialize (H term_80x24 ∅ ["sda"] []).
  assert (Hin : "sda" ∈ (dom (∅ : gmap string DeviceSelectionScreen.dev_info))).
  { apply H. vm_compute. reflexivity. }
  rewrite dom_empty_L in Hin. by apply not_elem_of_empty in Hin.
Qed.

(** ** Cursors *)

Lemma mode_show_inv b evs :
  mode_inv (final (ModeSelectionScreen.show (ModeSelectionScreen.init b) evs)).
Proof.
  unfold ModeSelectionScreen.show.
  apply (key_loop_final _ _ mode_inv); [apply mode_inv_step | apply mode_inv_init].
Qed.

Lemma mode_show_no_raise b evs :
  raised (ModeSelectionScreen.show (ModeSelectionScreen.init b) evs) = None.
Proof.
  unfold ModeSelectionScreen.show.
  apply (key_loop_raised _ _ mode_inv).
  - apply mode_inv_step.
  - done.
  - intros s k e. apply mode_inv_no_raise.
  - apply mode_inv_init.
Qed.

Lemma device_list_nonempty devs sel0 s :
  device_inv devs sel0 s → devs ≠ ∅ → DeviceSelectionScreen.device_list s ≠ [].
Proof.
  intros (_ & Hl & _ & _) Hne Hnil. apply Hne.
  apply dom_empty_iff_L, set_eq. intros d.
  rewrite <- Hl, Hnil. split; [by intros ?%not_elem_of_nil|by intros ?%not_elem_of_empty].
Qed.

(** C3.  For the mode screen, and for a device screen constructed from
    a non-empty [devices] mapping, whatever events [show] has processed
    the cursor indexes its list: 0 <= index < length.  Indexing the list
    with it yields an element, and [show] raises nothing. *)
Theorem cursor_stays_in_bounds b devs (sel : list string) evs :
  devs ≠ ∅ →
  let m := final (ModeSelectionScreen.show (ModeSelectionScreen.init b) evs) in
  let d := final (DeviceSelectionScreen.show (DeviceSelectionScreen.init b devs sel) evs) in
  (0 ≤ ModeSelectionScreen.selected m < Z.of_nat (length (ModeSelectionScreen.modes m))
   ∧ is_Some (py_index (ModeSelectionScreen.modes m) (ModeSelectionScreen.selected m))
   ∧ raised (ModeSelectionScreen.show (ModeSelectionScreen.init b) evs) = None)
  ∧ (0 ≤ DeviceSelectionScreen.cursor d < Z.of_nat (length (DeviceSelectionScreen.device_list d))
     ∧ is_Some (py_index (DeviceSelectionScreen.device_list d) (DeviceSelectionScreen.cursor d))
     ∧ raised (DeviceSelectionScreen.show (DeviceSelectionScreen.init b devs sel) evs) = None).
Proof.
  intros Hne m d. split.
  - pose proof (mode_show_inv b evs) as Hm. fold m in Hm. unfold mode_inv in Hm.
    split; [exact Hm|]. split; [by apply py_index_in_bounds|apply mode_show_no_raise].
  - pose proof (device_show_inv b devs sel evs) as Hd. fold d in Hd.
    pose proof (device_list_nonempty _ _ _ Hd Hne) as Hl.
    destruct Hd as (_ & _ & _ & Hc). specialize (Hc Hl).
    split; [exact Hc|]. split; [by apply py_index_in_bounds|apply device_show_no_raise].
Qed.

Lemma cursor_stays_in_bounds_witness :
  two_drives ≠ ∅
  ∧ 0 ≤ DeviceSelectionScreen.cursor
          (final (DeviceSelectionScreen.show
                    (DeviceSelectionScreen.init term_80x24 two_drives [])
                    [press "k"; press "k"; press "down"; press "j"; press "j"]))
      < 2.
Proof.
  assert (Hne : two_drives ≠ ∅).
  { intros Heq. assert (Hl : two_drives !! "sda" = None) by (rewrite Heq; apply lookup_empty).
    vm_compute in Hl. discriminate Hl. }
  split; [exact Hne|].
  pose proof (cursor_stays_in_bounds term_80x24 two_drives []
                [press "k"; press "k"; press "down"; press "j"; press "j"] Hne) as H.
  simpl in H. destruct H as [_ [Hc _]]. exact Hc.
Defined.

(** One navigation key, from any state whose cursor is in bounds. *)
Lemma navigation_step (m : ModeSelectionScreen.t) (d : DeviceSelectionScreen.t) :
  let nm := Z.of_nat (length (ModeSelectionScreen.modes m)) in
  let nd := Z.of_nat (length (DeviceSelectionScreen.device_list d)) in
  0 ≤ ModeSelectionScreen.selected m < nm →
  0 ≤ DeviceSelectionScreen.cursor d < nd →
  let down_m := if bool_decide (ModeSelectionScreen.selected m = nm - 1) then 0
                else ModeSelectionScreen.selected m + 1 in
  let up_m := if bool_decide (ModeSelectionScreen.selected m = 0) then nm - 1
              else ModeSelectionScreen.selected m - 1 in
  let down_d := if bool_decide (DeviceSelectionScreen.cursor d = nd - 1) then 0
                else DeviceSelectionScreen.cursor d + 1 in
  let up_d := if bool_decide (DeviceSelectionScreen.cursor d = 0) then nd - 1
              else DeviceSelectionScreen.cursor d - 1 in
  Forall (λ key,
      ModeSelectionScreen.handle m key = Continue (ModeSelectionScreen.with_selected m down_m)
      ∧ DeviceSelectionScreen.handle d key = Continue (DeviceSelectionScreen.with_cursor d down_d))
    ["j"; "down"]
  ∧ Forall (λ key,
      ModeSelectionScreen.handle m key = Continue (ModeSelectionScreen.with_selected m up_m)
      ∧ DeviceSelectionScreen.handle d key = Continue (DeviceSelectionScreen.with_cursor d up_d))
    ["k"; "up"].
Proof.
  intros nm nd Hm Hd down_m up_m down_d up_d.
  assert (Hdown_m : py_mod (ModeSelectionScreen.selected m + 1) nm = Some down_m).
  { unfold py_mod, down_m. rewrite bool_decide_eq_false_2 by lia. f_equal.
    case_bool_decide as Hlast.
    - replace (ModeSelectionScreen.selected m + 1) with nm by lia. apply Z_mod_same_full.
    - apply Z.mod_small. lia. }
  assert (Hup_m : py_mod (ModeSelectionScreen.selected m + -1) nm = Some up_m).
  { unfold py_mod, up_m. rewrite bool_decide_eq_false_2 by lia. f_equal.
    case_bool_decide as Hfirst.
    - rewrite Hfirst. symmetry. apply (Z.mod_unique_pos _ _ (-1)); lia.
    - apply Z.mod_small. lia. }
  assert (Hdown_d : py_mod (DeviceSelectionScreen.cursor d + 1) nd = Some down_d).
  { unfold py_mod, down_d. rewrite bool_decide_eq_false_2 by lia. f_equal.
    case_bool_decide as Hlast.
    - replace (DeviceSelectionScreen.cursor d + 1) with nd by lia. apply Z_mod_same_full.
    - apply Z.mod_small. lia. }
  assert (Hup_d : py_mod (DeviceSelectionScreen.cursor d + -1) nd = Some up_d).
  { unfold py_mod, up_d. rewrite bool_decide_eq_false_2 by lia. f_equal.
    case_bool_decide as Hfirst.
    - rewrite Hfirst. symmetry. apply (Z.mod_unique_pos _ _ (-1)); lia.
    - apply Z.mod_small. lia. }
  assert (Hlist : ∃ d0 l, DeviceSelectionScreen.device_list d = d0 :: l).
  { subst nd. destruct (DeviceSelectionScreen.device_list d) as [|d0 l]; [simpl in Hd; lia|eauto]. }
  destruct Hlist as (d0 & l & El).
  assert (Hmove_d : ∀ delta c, py_mod (DeviceSelectionScreen.cursor d + delta) nd = Some c →
            DeviceSelectionScreen.move d delta = Continue (DeviceSelectionScreen.with_cursor d c)).
  { intros delta c Hc. unfold DeviceSelectionScreen.move. rewrite El, <- El.
    fold nd. by rewrite Hc. }
  assert (Hmove_m : ∀ delta c, py_mod (ModeSelectionScreen.selected m + delta) nm = Some c →
            ModeSelectionScreen.move m delta = Continue (ModeSelectionScreen.with_selected m c)).
  { intros delta c Hc. unfold ModeSelectionScreen.move. fold nm. by rewrite Hc. }
  split; (apply Forall_cons_2; [split|apply Forall_cons_2; [split|apply Forall_nil_2]]).
  - change (ModeSelectionScreen.move m 1 = Continue (ModeSelectionScreen.with_selected m down_m)); eauto.
  - change (DeviceSelectionScreen.move d 1 = Continue (DeviceSelectionScreen.with_cursor d down_d)); eauto.
  - change (ModeSelectionScreen.move m 1 = Continue (ModeSelectionScreen.with_selected m down_m)); eauto.
  - change (DeviceSelectionScreen.move d 1 = Continue (DeviceSelectionScreen.with_cursor d down_d)); eauto.
  - change (ModeSelectionScreen.move m (-1) = Continue (ModeSelectionScreen.with_selected m up_m)); eauto.
  - change (DeviceSelectionScreen.move d (-1) = Continue (DeviceSelectionScreen.with_cursor d up_d)); eauto.
  - change (ModeSelectionScreen.move m (-1) = Continue (ModeSelectionScreen.with_selected m up_m)); eauto.
  - change (DeviceSelectionScreen.move d (-1) = Continue (DeviceSelectionScreen.with_cursor d up_d)); eauto.
Qed.

Lemma mode_reachable_inv m : mode_reachable m → mode_inv m.
Proof. intros (b & evs & ->). apply mode_show_inv. Qed.

Lemma device_reachable_cursor d :
  device_reachable d → DeviceSelectionScreen.device_list d ≠ [] →
  0 ≤ DeviceSelectionScreen.cursor d < Z.of_nat (length (DeviceSelectionScreen.device_list d)).
Proof. intros [sel0 (_ & _ & _ & Hc)]%device_reachable_inv Hne. by apply Hc. Qed.

Lemma key_loop_one_key {S : Type} (draw : S → list call * option exn)
    (handle : S → string → step S) s k s' out :
  (draw s).2 = None →
  handle s k = Continue s' →
  final (key_loop draw handle s [press k] out) = s'.
Proof.
  intros Hdraw Hk. simpl. destruct (draw s) as [cs e]. simpl in Hdraw. subst e.
  change (BaseScreen.wait_for_key (press k)) with k. rewrite Hk.
  by destruct (draw s') as [cs' [e'|]].
Qed.

(** C4.  Navigation wraps around.  On the mode screen, and on a device
    screen with a non-empty device list, j or down at the last index
    moves the cursor to 0 and elsewhere adds one; k or up at index 0
    moves it to the last index and elsewhere subtracts one.  The cursor
    read back from the screen after the key, also after [show] has
    processed it, is that index; nothing else of the screen changes. *)
Theorem navigation_wraps_around (m : ModeSelectionScreen.t) (d : DeviceSelectionScreen.t) :
  mode_reachable m →
  device_reachable d →
  DeviceSelectionScreen.device_list d ≠ [] →
  let nm := Z.of_nat (length (ModeSelectionScreen.modes m)) in
  let nd := Z.of_nat (length (DeviceSelectionScreen.device_list d)) in
  let down_m := if bool_decide (ModeSelectionScreen.selected m = nm - 1) then 0
                else ModeSelectionScreen.selected m + 1 in
  let up_m := if bool_decide (ModeSelectionScreen.selected m = 0) then nm - 1
              else ModeSelectionScreen.selected m - 1 in
  let down_d := if bool_decide (DeviceSelectionScreen.cursor d = nd - 1) then 0
                else DeviceSelectionScreen.cursor d + 1 in
  let up_d := if bool_decide (DeviceSelectionScreen.cursor d = 0) then nd - 1
              else DeviceSelectionScreen.cursor d - 1 in
  let moves_mode key index :=
    ∃ m', ModeSelectionScreen.handle m key = Continue m'
          ∧ final (ModeSelectionScreen.show m [press key]) = m'
          ∧ ModeSelectionScreen.selected m' = index
          ∧ ModeSelectionScreen.modes m' = ModeSelectionScreen.modes m
          ∧ ModeSelectionScreen.base m' = ModeSelectionScreen.base m in
  let moves_device key index :=
    ∃ d', DeviceSelectionScreen.handle d key = Continue d'
          ∧ final (DeviceSelectionScreen.show d [press key]) = d'
          ∧ DeviceSelectionScreen.cursor d' = index
          ∧ DeviceSelectionScreen.selected_drives d' = DeviceSelectionScreen.selected_drives d
          ∧ DeviceSelectionScreen.device_list d' = DeviceSelectionScreen.device_list d
          ∧ DeviceSelectionScreen.devices d' = DeviceSelectionScreen.devices d
          ∧ DeviceSelectionScreen.base d' = DeviceSelectionScreen.base d in
  Forall (λ key, moves_mode key down_m ∧ moves_device key down_d) ["j"; "down"]
  ∧ Forall (λ key, moves_mode key up_m ∧ moves_device key up_d) ["k"; "up"].
Proof.
  intros Hm Hd Hne nm nd down_m up_m down_d up_d moves_mode moves_device.
  destruct (device_reachable_inv d Hd) as [sel0 Hinv].
  pose proof (device_inv_draw _ _ _ Hinv) as Hdraw.
  destruct (navigation_step m d (mode_reachable_inv m Hm) (device_reachable_cursor d Hd Hne))
    as [Hdown Hup].
  assert (Hmode : ∀ key index,
            ModeSelectionScreen.handle m key
            = Continue (ModeSelectionScreen.with_selected m index) → moves_mode key index).
  { intros key index Hk. eexists. split; [exact Hk|]. split; [|done].
    by apply key_loop_one_key. }
  assert (Hdevice : ∀ key index,
            DeviceSelectionScreen.handle d key
            = Continue (DeviceSelectionScreen.with_cursor d index) → moves_device key index).
  { intros key index Hk. eexists. split; [exact Hk|]. split; [|done].
    by apply key_loop_one_key. }
  split.
  - eapply Forall_impl; [exact Hdown|]. intros key [Hkm Hkd]. auto.
  - eapply Forall_impl; [exact Hup|]. intros key [Hkm Hkd]. auto.
Qed.

Lemma navigation_wraps_around_witness :
  let m := ModeSelectionScreen.init term_80x24 in
  let d := DeviceSelectionScreen.init term_80x24 two_drives [] in
  mode_reachable m
  ∧ device_reachable d
  ∧ DeviceSelectionScreen.device_list d ≠ []
  ∧ ModeSelectionScreen.selected (final (ModeSelectionScreen.show m [press "up"])) = 1
  ∧ DeviceSelectionScreen.cursor (final (DeviceSelectionScreen.show d [press "up"])) = 1.
Proof.
  intros m d.
  assert (Hm : mode_reachable m) by (exists term_80x24, []; vm_compute; reflexivity).
  assert (Hd : device_reachable d)
    by (exists term_80x24, two_drives, [], []; vm_compute; reflexivity).
  assert (Hne : DeviceSelectionScreen.device_list d ≠ []) by (vm_compute; discriminate).
  split; [exact Hm|]. split; [exact Hd|]. split; [exact Hne|].
  destruct (navigation_wraps_around m d Hm Hd Hne) as [_ Hup].
  apply Forall_cons_1 in Hup as [_ Hup]. apply Forall_cons_1 in Hup as [Hup _].
  destruct Hup as [(m' & _ & Hfm & Hsel & _) (d' & _ & Hfd & Hcur & _)].
  rewrite Hfm, Hfd. split; [exact Hsel|exact Hcur].
Defined.

(** ** Toggling the selection *)

Lemma toggle_step s dev :
  py_index (DeviceSelectionScreen.device_list s) (DeviceSelectionScreen.cursor s) = Some dev →
  DeviceSelectionScreen.handle s " "
  = Continue (DeviceSelectionScreen.with_selected_drives s
                (if bool_decide (dev ∈ DeviceSelectionScreen.selected_drives s)
                 then DeviceSelectionScreen.selected_drives s ∖ {[dev]}
                 else DeviceSelectionScreen.selected_drives s ∪ {[dev]})).
Proof.
  intros Hdev. change (DeviceSelectionScreen.handle s " ") with (DeviceSelectionScreen.toggle s).
  unfold DeviceSelectionScreen.toggle.
  pose proof (py_index_elem _ _ _ Hdev) as Hin.
  destruct (DeviceSelectionScreen.device_list s) as [|d0 l] eqn:El;
    [by apply not_elem_of_nil in Hin|].
  rewrite Hdev. by destruct (bool_decide (dev ∈ DeviceSelectionScreen.selected_drives s)).
Qed.

Lemma toggle_twice s dev :
  py_index (DeviceSelectionScreen.device_list s) (DeviceSelectionScreen.cursor s) = Some dev →
  ∃ s1, DeviceSelectionScreen.handle s " " = Continue s1
        ∧ DeviceSelectionScreen.cursor s1 = DeviceSelectionScreen.cursor s
        ∧ (dev ∈ DeviceSelectionScreen.selected_drives s1
           ↔ dev ∉ DeviceSelectionScreen.selected_drives s)
        ∧ (∀ d, d ≠ dev → d ∈ DeviceSelectionScreen.selected_drives s1
                          ↔ d ∈ DeviceSelectionScreen.selected_drives s)
        ∧ DeviceSelectionScreen.handle s1 " " = Continue s.
Proof.
  intros Hdev. eexists. split; [by apply toggle_step|].
  split; [done|].
  rewrite (toggle_step _ dev) by done. simpl.
  destruct (decide (dev ∈ DeviceSelectionScreen.selected_drives s)) as [Hin|Hout].
  - rewrite (bool_decide_eq_true_2 (dev ∈ DeviceSelectionScreen.selected_drives s)) by done.
    rewrite bool_decide_eq_false_2
      by (rewrite elem_of_difference, elem_of_singleton; tauto).
    split; [rewrite elem_of_difference, elem_of_singleton; tauto|].
    split; [intros d Hd; rewrite elem_of_difference, elem_of_singleton; tauto|].
    f_equal. destruct s as [b dv sel c dl].
    unfold DeviceSelectionScreen.with_selected_drives. simpl in *. f_equal.
    apply set_eq. intros d.
    rewrite elem_of_union, elem_of_difference, elem_of_singleton.
    destruct (decide (d = dev)) as [->|]; tauto.
  - rewrite (bool_decide_eq_false_2 (dev ∈ DeviceSelectionScreen.selected_drives s)) by done.
    rewrite bool_decide_eq_true_2
      by (rewrite elem_of_union, elem_of_singleton; tauto).
    split; [rewrite elem_of_union, elem_of_singleton; tauto|].
    split; [intros d Hd; rewrite elem_of_union, elem_of_singleton; tauto|].
    f_equal. destruct s as [b dv sel c dl].
    unfold DeviceSelectionScreen.with_selected_drives. simpl in *. f_equal.
    apply set_eq. intros d.
    rewrite elem_of_difference, elem_of_union, elem_of_singleton.
    destruct (decide (d = dev)) as [->|]; tauto.
Qed.

Lemma device_cursor_on_device s :
  device_reachable s → DeviceSelectionScreen.device_list s ≠ [] →
  is_Some (py_index (DeviceSelectionScreen.device_list s) (DeviceSelectionScreen.cursor s)).
Proof. intros Hr Hne. by apply py_index_in_bounds, device_reachable_cursor. Qed.

(** C5, as the code has it.  The space key toggles, so it is not
    idempotent: on a device screen with a non-empty device list, a
    second press (cursor unchanged) gives back the selection set there
    was before the first, and that set is never the one a single press
    leaves. *)
Theorem toggle_twice_undoes_once s :
  device_reachable s →
  DeviceSelectionScreen.device_list s ≠ [] →
  ∃ s1 s2,
    DeviceSelectionScreen.handle s " " = Continue s1
    ∧ DeviceSelectionScreen.cursor s1 = DeviceSelectionScreen.cursor s
    ∧ DeviceSelectionScreen.handle s1 " " = Continue s2
    ∧ DeviceSelectionScreen.selected_drives s2 = DeviceSelectionScreen.selected_drives s
    ∧ DeviceSelectionScreen.selected_drives s2 ≠ DeviceSelectionScreen.selected_drives s1.
Proof.
  intros Hr Hne. destruct (device_cursor_on_device s Hr Hne) as [dev Hdev].
  destruct (toggle_twice s dev Hdev) as (s1 & H1 & Hc & Hflip & _ & H2).
  exists s1, s. repeat split; try done.
  intros Heq. rewrite <- Heq in Hflip. tauto.
Qed.

Lemma toggle_twice_undoes_once_witness :
  let s := DeviceSelectionScreen.init term_80x24 two_drives [] in
  device_reachable s
  ∧ DeviceSelectionScreen.device_list s ≠ []
  ∧ ∃ s1 s2,
      DeviceSelectionScreen.handle s " " = Continue s1
      ∧ DeviceSelectionScreen.cursor s1 = DeviceSelectionScreen.cursor s
      ∧ DeviceSelectionScreen.handle s1 " " = Continue s2
      ∧ DeviceSelectionScreen.selected_drives s2 = DeviceSelectionScreen.selected_drives s
      ∧ DeviceSelectionScreen.selected_drives s2 ≠ DeviceSelectionScreen.selected_drives s1.
Proof.
  intros s.
  assert (Hr : device_reachable s)
    by (exists term_80x24, two_drives, [], []; vm_compute; reflexivity).
  assert (Hne : DeviceSelectionScreen.device_list s ≠ []) by (vm_compute; discriminate).
  split; [exact Hr|]. split; [exact Hne|]. exact (toggle_twice_undoes_once s Hr Hne).
Defined.

(** C5 as stated fails: after one press on an empty selection the drive
    under the cursor is selected, after two it is not. *)
Lemma toggle_not_idempotent :
  ¬ (∀ s s1 s2,
       DeviceSelectionScreen.device_list s ≠ [] →
       DeviceSelectionScreen.handle s " " = Continue s1 →
       DeviceSelectionScreen.handle s1 " " = Continue s2 →
       DeviceSelectionScreen.selected_drives s2 = DeviceSelectionScreen.selected_drives s1).
Proof.
  intros H.
  pose (s := DeviceSelectionScreen.init term_80x24 two_drives []).
  assert (Hdev : py_index (DeviceSelectionScreen.device_list s) (DeviceSelectionScreen.cursor s)
                 = Some "sda") by (vm_compute; reflexivity).
  destruct (toggle_twice s "sda" Hdev) as (s1 & H1 & _ & Hflip & _ & H2).
  assert (Hne : DeviceSelectionScreen.device_list s ≠ []) by (vm_compute; discriminate).
  specialize (H s s1 s Hne H1 H2).
  rewrite <- H in Hflip. tauto.
Qed.

(** C8.  The space key is an involution on the selection.  On a device
    screen with a non-empty device list the cursor is on a device; one
    press flips that device's membership in the selection set and
    leaves every other device's membership and the cursor alone; a
    second press puts the screen back exactly as it was. *)
Theorem toggle_is_involution s :
  device_reachable s →
  DeviceSelectionScreen.device_list s ≠ [] →
  ∃ dev s1,
    py_index (DeviceSelectionScreen.device_list s) (DeviceSelectionScreen.cursor s) = Some dev
    ∧ DeviceSelectionScreen.handle s " " = Continue s1
    ∧ DeviceSelectionScreen.cursor s1 = DeviceSelectionScreen.cursor s
    ∧ (dev ∈ DeviceSelectionScreen.selected_drives s1
       ↔ dev ∉ DeviceSelectionScreen.selected_drives s)
    ∧ (∀ d, d ≠ dev → d ∈ DeviceSelectionScreen.selected_drives s1
                      ↔ d ∈ DeviceSelectionScreen.selected_drives s)
    ∧ DeviceSelectionScreen.handle s1 " " = Continue s.
Proof.
  intros Hr Hne. destruct (device_cursor_on_device s Hr Hne) as [dev Hdev].
  destruct (toggle_twice s dev Hdev) as (s1 & Hs1).
  exists dev, s1. split; [exact Hdev|exact Hs1].
Qed.

Lemma toggle_is_involution_witness :
  let s := DeviceSelectionScreen.init term_80x24 two_drives ["sdb"] in
  device_reachable s
  ∧ DeviceSelectionScreen.device_list s ≠ []
  ∧ ∃ s1, DeviceSelectionScreen.handle s " " = Continue s1
          ∧ DeviceSelectionScreen.handle s1 " " = Continue s.
Proof.
  intros s.
  assert (Hr : device_reachable s)
    by (exists term_80x24, two_drives, ["sdb"], []; vm_compute; reflexivity).
  assert (Hne : DeviceSelectionScreen.device_list s ≠ []) by (vm_compute; discriminate).
  split; [exact Hr|]. split; [exact Hne|].
  destruct (toggle_is_involution s Hr Hne) as (dev & s1 & _ & H1 & _ & _ & _ & H2).
  exists s1. split; [exact H1|exact H2].
Defined.

(** ** What show returns *)

Lemma key_loop_returns {S : Type} (draw : S → list call * option exn)
    (handle : S → string → step S) (Q : pyval → Prop) :
  (∀ s k v, handle s k = Return v → Q v) →
  ∀ evs s out v, returned (key_loop draw handle s evs out) = Some v → Q v.
Proof.
  intros HQ evs s out v.
  apply (key_loop_returned draw handle (λ _, True)); auto. intros; eauto.
Qed.










(** ** The installation placeholder *)

(** C7.  [InstallationScreen.show] does no installation work and reads
    no input.  Whatever state it holds and whatever events are pending,
    it erases the plane, writes its two lines, renders, sleeps for 3
    seconds and returns success, leaving every pending event unread. *)
Theorem installation_show_is_a_stub {St Info} (self : InstallationScreen.t St) evs :
  show (Installation (Info := Info) self) evs = Some (PStr "success")
  ∧ InstallationScreen.show self evs
  = Returned (PStr "success") self evs
      [erase;
       set_fg_rgb8 0 255 0;
       putstr_yx 5 ((BaseScreen.width (InstallationScreen.base self) - 34) `div` 2)
         "Installation Screen - Coming Soon!";
       set_fg_default;
       set_fg_rgb8 255 255 0;
       putstr_yx 7 ((BaseScreen.width (InstallationScreen.base self) - 26) `div` 2)
         "Simulating installation...";
       set_fg_default;
       render;
       sleep 3].
Proof. split; reflexivity. Qed.

(** ** Sizes *)

Lemma GB_is_not_TB (s t : string) : s +:+ "GB" ≠ t +:+ "TB".
Proof.
  revert t. induction s as [|c s IH]; intros [|c' t]; simpl.
  - discriminate.
  - destruct t as [|c'' [|? ?]]; simpl; discriminate.
  - destruct s as [|c'' [|? ?]]; simpl; discriminate.
  - intros [= _ Heq]. by apply IH in Heq.
Qed.

(** C9.  [format_size] takes gb = size_bytes // 1024^3.  It answers in
    terabytes, gb // 1024 followed by TB, exactly when gb is strictly
    greater than 1024, and otherwise with gb followed by GB.  A size of
    exactly 1024 * 1024^3 bytes is therefore shown as 1024GB, not 1TB. *)
Theorem format_size_threshold (size_bytes : Z) :
  let gb := size_bytes `div` 1024 ^ 3 in
  (gb > 1024
   ∧ DeviceSelectionScreen.format_size size_bytes = str_of_int (gb `div` 1024) +:+ "TB"
   ∨ gb ≤ 1024
     ∧ DeviceSelectionScreen.format_size size_bytes = str_of_int gb +:+ "GB")
  ∧ ((∃ t, DeviceSelectionScreen.format_size size_bytes = t +:+ "TB") ↔ gb > 1024)
  ∧ DeviceSelectionScreen.format_size (1024 * 1024 ^ 3) = "1024GB"
  ∧ DeviceSelectionScreen.format_size (1024 * 1024 ^ 3) ≠ "1TB"
  ∧ DeviceSelectionScreen.format_size (1025 * 1024 ^ 3) = "1TB".
Proof.
  intros gb. unfold DeviceSelectionScreen.format_size. fold gb.
  split; [|split; [|split; [|split]]].
  - case_bool_decide; [left|right]; split; (lia || done).
  - case_bool_decide as Hgb; split.
    + done.
    + intros _. by eexists.
    + intros [t Ht]. by apply GB_is_not_TB in Ht.
    + lia.
  - reflexivity.
  - discriminate.
  - reflexivity.
Qed.

(** ** No devices at all *)

Lemma device_empty_handle b (sel : list string) k s' :
  let s0 := DeviceSelectionScreen.init b ∅ sel in
  DeviceSelectionScreen.handle s0 k = Continue s' → s' = s0.
Proof.
  intros s0. unfold DeviceSelectionScreen.handle.
  assert (El : DeviceSelectionScreen.device_list s0 = []) by by apply device_list_init_nil.
  unfold DeviceSelectionScreen.toggle, DeviceSelectionScreen.move. rewrite El.
  repeat case_match; try discriminate; by intros [= <-].
Qed.

(** C10, as the code has it.  A device screen constructed from an empty
    [devices] mapping never changes, whatever the events, and nothing
    raises: the empty list is never indexed.  The space and navigation
    keys are swallowed.  ENTER is swallowed when the initial
    [selected_drives] is empty; otherwise it returns those drives.  So
    [show] returns back, quit, or the initial selection if there is one. *)
Theorem device_show_without_devices b (sel : list string) evs :
  let s0 := DeviceSelectionScreen.init b ∅ sel in
  final (DeviceSelectionScreen.show s0 evs) = s0
  ∧ raised (DeviceSelectionScreen.show s0 evs) = None
  ∧ Forall (λ key, DeviceSelectionScreen.handle s0 key = Continue s0)
      [" "; "j"; "down"; "k"; "up"]
  ∧ Forall (λ key, DeviceSelectionScreen.handle s0 key
                   = if bool_decide (sel = []) then Continue s0
                     else Return (PList (elements (list_to_set sel : gset string))))
      [LF; CR]
  ∧ (∀ v, returned (DeviceSelectionScreen.show s0 evs) = Some v →
          v = PStr "back" ∨ v = PStr "quit"
          ∨ sel ≠ [] ∧ v = PList (elements (list_to_set sel : gset string))).
Proof.
  intros s0.
  assert (El : DeviceSelectionScreen.device_list s0 = []) by by apply device_list_init_nil.
  assert (Henter : ∀ key, key = LF ∨ key = CR →
            DeviceSelectionScreen.handle s0 key
            = if bool_decide (sel = []) then Continue s0
              else Return (PList (elements (list_to_set sel : gset string)))).
  { intros key Hkey.
    assert (Hh : DeviceSelectionScreen.handle s0 key
                 = if bool_decide (Z.of_nat (size (DeviceSelectionScreen.selected_drives s0)) > 0)
                   then Return (PList (elements (DeviceSelectionScreen.selected_drives s0)))
                   else Continue s0)
      by (unfold DeviceSelectionScreen.handle; destruct Hkey as [-> | ->]; reflexivity).
    rewrite Hh. simpl. destruct sel as [|d sel'].
    - reflexivity.
    - rewrite (bool_decide_eq_false_2 (d :: sel' = [])) by done.
      rewrite bool_decide_eq_true_2; [done|].
      assert (size (list_to_set (d :: sel') : gset string) ≠ 0%nat); [|lia].
      rewrite size_non_empty_iff. intros Hempty.
      assert (Hd : d ∈ (list_to_set (d :: sel') : gset string))
        by (apply elem_of_list_to_set; left).
      rewrite Hempty in Hd. by apply not_elem_of_empty in Hd. }
  assert (Hstep : ∀ s k s', s = s0 → DeviceSelectionScreen.handle s k = Continue s' → s' = s0)
    by (intros s k s' ->; apply device_empty_handle).
  split; [|split; [|split; [|split]]].
  - unfold DeviceSelectionScreen.show.
    by apply (key_loop_final _ _ (λ s, s = s0) Hstep).
  - apply device_show_no_raise.
  - repeat apply Forall_cons_2; try apply Forall_nil_2;
      unfold DeviceSelectionScreen.handle, DeviceSelectionScreen.toggle,
        DeviceSelectionScreen.move; rewrite El; reflexivity.
  - repeat apply Forall_cons_2; try apply Forall_nil_2; apply Henter; auto.
  - intros v. unfold DeviceSelectionScreen.show.
    apply (key_loop_returned _ _ (λ s, s = s0) Hstep
             (λ v, v = PStr "back" ∨ v = PStr "quit"
                   ∨ sel ≠ [] ∧ v = PList (elements (list_to_set sel : gset string))));
      [|done].
    clear Henter Hstep. intros s k w ->. unfold DeviceSelectionScreen.handle at 1.
    unfold DeviceSelectionScreen.toggle, DeviceSelectionScreen.move. rewrite El.
    destruct (bool_decide (Z.of_nat (size (DeviceSelectionScreen.selected_drives s0)) > 0))
      eqn:Hsize.
    + repeat case_match; try discriminate; try (intros [= <-]; by auto).
      intros [= <-]. right; right. split; [|done].
      intros ->. subst s0. vm_compute in Hsize. discriminate Hsize.
    + repeat case_match; try discriminate; intros [= <-]; by auto.
Qed.

(** C10 as stated fails: with no devices but an initial selection,
    ENTER returns that selection. *)
Lemma device_show_without_devices_returns_list :
  ¬ (∀ b (sel : list string) evs v,
       returned (DeviceSelectionScreen.show (DeviceSelectionScreen.init b ∅ sel) evs) = Some v →
       v = PStr "back" ∨ v = PStr "quit").
Proof.
  intros H.
  destruct (H term_80x24 ["sda"] [press LF] (PList ["sda"])) as [Hv|Hv].
  - vm_compute. reflexivity.
  - discriminate Hv.
  - discriminate Hv.
Qed.

(** * Further properties *)

(** ** Drawing helpers *)

Lemma py_len_app (s t : string) : py_len (s +:+ t) = py_len s + py_len t.
Proof. induction s as [|c s IH]; simpl; [done|]. rewrite IH. lia. Qed.

Lemma py_len_nonneg (s : string) : 0 ≤ py_len s.
Proof. induction s as [|c s IH]; simpl; [done|]. destruct (is_continuation c); lia. Qed.

Lemma py_len_str_mul (s : string) (n : Z) : py_len (str_mul s n) = py_len s * Z.max 0 n.
Proof.
  unfold str_mul. rewrite <- (Z2Nat.id (Z.max 0 n)) by lia.
  replace (Z.to_nat (Z.max 0 n)) with (Z.to_nat n) by lia.
  induction (Z.to_nat n) as [|k IH]; [simpl; lia|].
  destruct k as [|k].
  - simpl. lia.
  - change (replicate (S (S k)) s) with (s :: replicate (S k) s).
    change (String.concat "" (s :: replicate (S k) s))
      with (s +:+ "" +:+ String.concat "" (replicate (S k) s)).
    rewrite !py_len_app, IH. simpl py_len. lia.
Qed.

(** X1.  [draw_centered_text] sets the colour, writes the text once and
    resets the colour.  The column it writes at centres the text, any
    odd column of slack going to the right; a text wider than the
    screen is not clipped but written from a negative column. *)
Theorem draw_centered_text_centres (self : BaseScreen.t) (y : Z) (text : string) (color : Z) :
  ∃ x, BaseScreen.draw_centered_text self y text color
       = [BaseScreen.fg color; putstr_yx y x text; set_fg_default]
       ∧ (let right := BaseScreen.width self - (x + py_len text) in x ≤ right ≤ x + 1)
       ∧ (x < 0 ↔ BaseScreen.width self < py_len text).
Proof.
  eexists. split; [reflexivity|].
  pose proof (Z.div_mod (BaseScreen.width self - py_len text) 2 ltac:(lia)) as Hdm.
  pose proof (Z.mod_pos_bound (BaseScreen.width self - py_len text) 2 ltac:(lia)) as Hm.
  simpl. split; lia.
Qed.

(** X2.  The colour split of [draw_centered_text]: a colour 0xRRGGBB is
    passed on as its three bytes, from which it can be rebuilt.  Green
    and blue are masked to a byte; red is not, so it exceeds 255 exactly
    when the colour does not fit in 24 bits. *)
Theorem fg_splits_color (color : Z) :
  0 ≤ color →
  ∃ r g b, BaseScreen.fg color = set_fg_rgb8 r g b
           ∧ 0 ≤ r ∧ 0 ≤ g < 256 ∧ 0 ≤ b < 256
           ∧ color = r * 65536 + g * 256 + b
           ∧ (r < 256 ↔ color < 2 ^ 24).
Proof.
  intros Hc. unfold BaseScreen.fg. do 3 eexists. split; [reflexivity|].
  rewrite !Z.shiftr_div_pow2 by lia.
  change 0xff with (Z.ones 8). rewrite !Z.land_ones by lia.
  change (2 ^ 16) with 65536. change (2 ^ 8) with 256. change (2 ^ 24) with 16777216.
  pose proof (Z.div_mod color 65536 ltac:(lia)) as H16.
  pose proof (Z.mod_pos_bound color 65536 ltac:(lia)) as B16.
  pose proof (Z.div_mod color 256 ltac:(lia)) as H8.
  pose proof (Z.mod_pos_bound color 256 ltac:(lia)) as B8.
  pose proof (Z.div_mod (color `div` 256) 256 ltac:(lia)) as H88.
  pose proof (Z.mod_pos_bound (color `div` 256) 256 ltac:(lia)) as B88.
  assert (Hdd : (color `div` 256) `div` 256 = color `div` 65536)
    by (rewrite Z.div_div by lia; reflexivity).
  assert (Hr : 0 ≤ color `div` 65536) by (apply Z.div_pos; lia).
  repeat split; try lia.
Qed.

Lemma fg_splits_color_witness :
  0 ≤ 0x00ffff
  ∧ ∃ r g b, BaseScreen.fg 0x00ffff = set_fg_rgb8 r g b
             ∧ 0 ≤ r ∧ 0 ≤ g < 256 ∧ 0 ≤ b < 256
             ∧ 0x00ffff = r * 65536 + g * 256 + b
             ∧ (r < 256 ↔ 0x00ffff < 2 ^ 24).
Proof.
  assert (H : 0 ≤ 0x00ffff) by lia.
  split; [exact H|]. exact (fg_splits_color 0x00ffff H).
Defined.

Lemma draw_box_rows_inside (y x width : Z) (rows : list Z) (lo hi : Z) :
  1 ≤ width →
  Forall (λ i, lo ≤ y + i ≤ hi) rows →
  Forall (λ c, match c with
               | putstr_yx r col s => lo ≤ r ≤ hi ∧ x ≤ col ∧ col + py_len s ≤ x + width
               | _ => False
               end)
    (flat_map (λ i, [putstr_yx (y + i) x "║"; putstr_yx (y + i) (x + width - 1) "║"]) rows).
Proof.
  intros Hw. induction 1 as [|i rows Hi _ IH]; simpl; [constructor|].
  repeat (apply Forall_cons_2; [change (py_len "║") with 1; lia|]). exact IH.
Qed.

(** X3.  A box of at least two rows and two columns is drawn inside its
    own rectangle: every string [draw_box] writes starts in a row from
    [y] to [y + height - 1] and lies between columns [x] and
    [x + width - 1], the title included when it fits with its padding.
    Nothing but [putstr_yx] is called. *)
Theorem draw_box_stays_inside (y x height width : Z) (title : string) :
  2 ≤ height → 2 ≤ width → title = "" ∨ py_len title + 4 ≤ width →
  Forall (λ c, match c with
               | putstr_yx r col s =>
                   y ≤ r ≤ y + height - 1 ∧ x ≤ col ∧ col + py_len s ≤ x + width
               | _ => False
               end)
    (BaseScreen.draw_box y x height width title).
Proof.
  intros Hh Hw Ht. unfold BaseScreen.draw_box.
  assert (Hline : ∀ l r, py_len l = 1 → py_len r = 1 →
            py_len (l +:+ str_mul "═" (width - 2) +:+ r) = width).
  { intros l r Hl Hr. rewrite !py_len_app, py_len_str_mul, Hl, Hr.
    change (py_len "═") with 1. lia. }
  apply Forall_app_2; [|apply Forall_app_2; [|apply Forall_app_2]].
  - apply Forall_cons_2; [|constructor]. rewrite Hline by reflexivity. lia.
  - apply draw_box_rows_inside; [lia|].
    apply Forall_forall. intros i Hi. apply elem_of_seqZ in Hi. lia.
  - apply Forall_cons_2; [|constructor]. rewrite Hline by reflexivity. lia.
  - case_bool_decide as Hempty; [constructor|].
    destruct Ht as [Ht|Ht]; [done|].
    apply Forall_cons_2; [|constructor].
    rewrite !py_len_app. change (py_len "  ") with 2.
    set (n := 2 + (py_len title + 2)).
    pose proof (Z.div_mod (width - n) 2 ltac:(lia)) as Hdm.
    pose proof (Z.mod_pos_bound (width - n) 2 ltac:(lia)) as Hm.
    lia.
Qed.

Lemma draw_box_stays_inside_witness :
  2 ≤ 12 ∧ 2 ≤ 60 ∧ py_len "System Information" + 4 ≤ 60
  ∧ Forall (λ c, match c with
                 | putstr_yx r col s => 6 ≤ r ≤ 6 + 12 - 1 ∧ 10 ≤ col ∧ col + py_len s ≤ 10 + 60
                 | _ => False
                 end)
      (BaseScreen.draw_box 6 10 12 60 "System Information").
Proof.
  assert (Hh : 2 ≤ 12) by lia. assert (Hw : 2 ≤ 60) by lia.
  assert (Ht : py_len "System Information" + 4 ≤ 60) by (vm_compute; discriminate).
  split; [exact Hh|]. split; [exact Hw|]. split; [exact Ht|].
  exact (draw_box_stays_inside 6 10 12 60 "System Information" Hh Hw (or_intror Ht)).
Defined.

(** ** Sizes, again *)

(** X4.  The number [format_size] shows is a floor, never a rounding up:
    n followed by GB means n GiB <= size_bytes < (n + 1) GiB with
    n <= 1024, and n followed by TB means
    n TiB <= size_bytes < (n + 1) TiB with n >= 1. *)
Theorem format_size_floors (size_bytes : Z) :
  ∃ n, (DeviceSelectionScreen.format_size size_bytes = str_of_int n +:+ "GB"
        ∧ n ≤ 1024 ∧ n * 1024 ^ 3 ≤ size_bytes < (n + 1) * 1024 ^ 3)
       ∨ (DeviceSelectionScreen.format_size size_bytes = str_of_int n +:+ "TB"
          ∧ 1 ≤ n ∧ n * 1024 ^ 4 ≤ size_bytes < (n + 1) * 1024 ^ 4).
Proof.
  unfold DeviceSelectionScreen.format_size.
  change (1024 ^ 3) with 1073741824. change (1024 ^ 4) with 1099511627776.
  pose proof (Z.div_mod size_bytes 1073741824 ltac:(lia)) as Hg.
  pose proof (Z.mod_pos_bound size_bytes 1073741824 ltac:(lia)) as Bg.
  set (gb := size_bytes `div` 1073741824) in *.
  pose proof (Z.div_mod gb 1024 ltac:(lia)) as Ht.
  pose proof (Z.mod_pos_bound gb 1024 ltac:(lia)) as Bt.
  case_bool_decide as Hbig.
  - exists (gb `div` 1024). right. split; [done|]. lia.
  - exists gb. left. split; [done|]. lia.
Qed.

(** ** Keys *)

Lemma lower_ascii_letter (a c : ascii) :
  (97 ≤ nat_of_ascii c ≤ 122)%nat →
  lower_ascii a = c ↔ a = c ∨ a = ascii_of_nat (nat_of_ascii c - 32).
Proof.
  intros Hc. unfold lower_ascii.
  pose proof (nat_ascii_bounded a) as Ha.
  case_bool_decide as Hup.
  - split.
    + intros <-. right. rewrite nat_ascii_embedding by lia.
      replace (nat_of_ascii a + 32 - 32)%nat with (nat_of_ascii a) by lia.
      by rewrite ascii_nat_embedding.
    + intros [-> | ->]; [exfalso; lia|].
      rewrite nat_ascii_embedding by lia.
      replace (nat_of_ascii c - 32 + 32)%nat with (nat_of_ascii c) by lia.
      apply ascii_nat_embedding.
  - split; [by left|]. intros [-> | ->]; [done|].
    rewrite nat_ascii_embedding in Hup by lia. lia.
Qed.

Lemma lower_is_letter (key : string) (c : ascii) :
  (97 ≤ nat_of_ascii c ≤ 122)%nat →
  lower key = String c EmptyString
  ↔ key = String c EmptyString
    ∨ key = String (ascii_of_nat (nat_of_ascii c - 32)) EmptyString.
Proof.
  intros Hc. destruct key as [|a [|a' r]]; simpl.
  - split; [discriminate|intros [?|?]; discriminate].
  - split.
    + intros [= Ha]. apply lower_ascii_letter in Ha as [-> | ->]; auto.
    + intros Ha. f_equal. apply lower_ascii_letter; [done|].
      destruct Ha as [[= ->] | [= ->]]; auto.
  - split; [discriminate|intros [?|?]; discriminate].
Qed.

Lemma lower_is_q key : lower key = "q" ↔ key = "q" ∨ key = "Q".
Proof. apply (lower_is_letter key "q"%char). cbv [nat_of_ascii N_of_ascii N_of_digits]. simpl. lia. Qed.

Lemma lower_is_y key : lower key = "y" ↔ key = "y" ∨ key = "Y".
Proof. apply (lower_is_letter key "y"%char). cbv [nat_of_ascii N_of_ascii N_of_digits]. simpl. lia. Qed.

Lemma lower_is_n key : lower key = "n" ↔ key = "n" ∨ key = "N".
Proof. apply (lower_is_letter key "n"%char). cbv [nat_of_ascii N_of_ascii N_of_digits]. simpl. lia. Qed.

(** X5.  Key releases are not keys.  For an event that is a release, or
    that carries no id, [wait_for_key] yields the empty string, and the
    six screens that loop on keys then go round again unchanged.  The
    completion screen does not look at the key at all: such an event
    ends it like any other. *)
Theorem release_events_are_ignored {St Info} (ev : event) (rest : list event)
    (w : WelcomeScreen.t) (m : ModeSelectionScreen.t) (d : DeviceSelectionScreen.t)
    (s : SettingsScreen.t St) (v : ValidationScreen.t St Info)
    (c : ConfirmationScreen.t St) (f : CompletionScreen.t St) :
  is_release ev = true ∨ ev_id ev = None →
  BaseScreen.wait_for_key ev = ""
  ∧ WelcomeScreen.handle w (BaseScreen.wait_for_key ev) = Continue w
  ∧ ModeSelectionScreen.handle m (BaseScreen.wait_for_key ev) = Continue m
  ∧ DeviceSelectionScreen.handle d (BaseScreen.wait_for_key ev) = Continue d
  ∧ SettingsScreen.handle s (BaseScreen.wait_for_key ev) = Continue s
  ∧ ValidationScreen.handle v (BaseScreen.wait_for_key ev) = Continue v
  ∧ ConfirmationScreen.handle c (BaseScreen.wait_for_key ev) = Continue c
  ∧ returned (CompletionScreen.show f (ev :: rest)) = Some (PStr "quit").
Proof.
  intros Hev.
  assert (Hkey : BaseScreen.wait_for_key ev = "").
  { unfold BaseScreen.wait_for_key. destruct Hev as [-> | Hid]; [done|].
    rewrite Hid. by destruct (is_release ev). }
  rewrite Hkey. repeat split; reflexivity.
Qed.

Lemma release_events_are_ignored_witness :
  let ev := {| is_release := true; ev_id := Some "q" |} in
  let d := DeviceSelectionScreen.init term_80x24 two_drives [] in
  (is_release ev = true ∨ ev_id ev = None)
  ∧ DeviceSelectionScreen.handle d (BaseScreen.wait_for_key ev) = Continue d.
Proof.
  intros ev d.
  assert (Hev : is_release ev = true ∨ ev_id ev = None) by (left; reflexivity).
  split; [exact Hev|].
  pose proof (release_events_are_ignored (St := unit) (Info := unit) ev []
                (WelcomeScreen.init term_80x24 ∅) (ModeSelectionScreen.init term_80x24) d
                {| SettingsScreen.base := term_80x24; SettingsScreen.state := tt |}
                {| ValidationScreen.base := term_80x24; ValidationScreen.state := tt;
                   ValidationScreen.system_info := tt |}
                {| ConfirmationScreen.base := term_80x24; ConfirmationScreen.state := tt |}
                {| CompletionScreen.base := term_80x24; CompletionScreen.state := tt |}
                Hev) as H.
  exact (proj1 (proj2 (proj2 (proj2 H)))).
Defined.

Ltac handler_cases :=
  repeat case_match; try discriminate;
  intros _;
  match goal with
  | H : bool_decide (lower _ = _) = true |- _ => by apply bool_decide_eq_true_1 in H
  end.

(** X6.  The quit key is q in either case and nothing else: on the
    welcome, device, settings, validation and confirmation screens a key
    makes the handler return quit exactly when it is q or Q. *)
Theorem quit_is_q_or_Q {St Info} (key : string)
    (w : WelcomeScreen.t) (d : DeviceSelectionScreen.t)
    (s : SettingsScreen.t St) (v : ValidationScreen.t St Info)
    (c : ConfirmationScreen.t St) :
  let is_q := key = "q" ∨ key = "Q" in
  (WelcomeScreen.handle w key = Return (PStr "quit") ↔ is_q)
  ∧ (DeviceSelectionScreen.handle d key = Return (PStr "quit") ↔ is_q)
  ∧ (SettingsScreen.handle s key = Return (PStr "quit") ↔ is_q)
  ∧ (ValidationScreen.handle v key = Return (PStr "quit") ↔ is_q)
  ∧ (ConfirmationScreen.handle c key = Return (PStr "quit") ↔ is_q).
Proof.
  intros is_q. subst is_q. rewrite <- lower_is_q.
  repeat split.
  - unfold WelcomeScreen.handle. handler_cases.
  - intros Hl. apply lower_is_q in Hl as [-> | ->]; reflexivity.
  - unfold DeviceSelectionScreen.handle, DeviceSelectionScreen.toggle, DeviceSelectionScreen.move.
    handler_cases.
  - intros Hl. apply lower_is_q in Hl as [-> | ->]; reflexivity.
  - unfold SettingsScreen.handle. handler_cases.
  - intros Hl. apply lower_is_q in Hl as [-> | ->]; reflexivity.
  - unfold ValidationScreen.handle. handler_cases.
  - intros Hl. apply lower_is_q in Hl as [-> | ->]; reflexivity.
  - unfold ConfirmationScreen.handle. handler_cases.
  - intros Hl. apply lower_is_q in Hl as [-> | ->]; reflexivity.
Qed.

(** X7.  The confirmation screen's answers: y or Y proceeds; n, N or
    escape goes back; every other key but q and Q is ignored. *)
Theorem confirmation_keys {St} (c : ConfirmationScreen.t St) (key : string) :
  (ConfirmationScreen.handle c key = Return (PStr "proceed") ↔ key = "y" ∨ key = "Y")
  ∧ (ConfirmationScreen.handle c key = Return (PStr "back")
     ↔ key = "n" ∨ key = "N" ∨ key = "escape")
  ∧ (ConfirmationScreen.handle c key = Continue c
     ↔ ¬ (key = "y" ∨ key = "Y" ∨ key = "n" ∨ key = "N" ∨ key = "escape"
          ∨ key = "q" ∨ key = "Q")).
Proof.
  pose proof (lower_is_y key) as Hy. pose proof (lower_is_n key) as Hn.
  pose proof (lower_is_q key) as Hq.
  assert (Hyn : lower key = "y" → lower key = "n" → False) by (intros ->; discriminate).
  assert (Hyq : lower key = "y" → lower key = "q" → False) by (intros ->; discriminate).
  assert (Hnq : lower key = "n" → lower key = "q" → False) by (intros ->; discriminate).
  assert (Hye : lower key = "y" → key = "escape" → False) by (intros H ->; discriminate).
  assert (Hqe : lower key = "q" → key = "escape" → False) by (intros H ->; discriminate).
  unfold ConfirmationScreen.handle.
  destruct (decide (lower key = "y")) as [Ey|Ey];
    [rewrite (bool_decide_eq_true_2 _ Ey)|rewrite (bool_decide_eq_false_2 _ Ey)].
  { repeat split; intros; try discriminate; try done; tauto. }
  destruct (decide (lower key = "n")) as [En|En];
    [rewrite (bool_decide_eq_true_2 _ En)|rewrite (bool_decide_eq_false_2 _ En)].
  { simpl. repeat split; intros; try discriminate; try done; tauto. }
  destruct (decide (key = "escape")) as [Ee|Ee];
    [rewrite (bool_decide_eq_true_2 _ Ee)|rewrite (bool_decide_eq_false_2 _ Ee)].
  { simpl. repeat split; intros; try discriminate; try done; tauto. }
  simpl.
  destruct (decide (lower key = "q")) as [Eq|Eq];
    [rewrite (bool_decide_eq_true_2 _ Eq)|rewrite (bool_decide_eq_false_2 _ Eq)];
    repeat split; intros; try discriminate; try done; tauto.
Qed.

(** ** What each screen can return *)

Lemma key_loop_returned_out {S : Type} (draw : S → list call * option exn)
    (handle : S → string → step S) evs :
  ∀ s out out',
    returned (key_loop draw handle s evs out) = returned (key_loop draw handle s evs out')
    ∧ final (key_loop draw handle s evs out) = final (key_loop draw handle s evs out')
    ∧ raised (key_loop draw handle s evs out) = raised (key_loop draw handle s evs out').
Proof.
  induction evs as [|ev rest IH]; intros s out out'; simpl.
  - by destruct (draw s) as [cs [e|]].
  - destruct (draw s) as [cs [e|]]; [done|].
    destruct (handle s (BaseScreen.wait_for_key ev)) as [v|s'|e]; simpl; auto.
Qed.

Lemma mode_modes_step s k s' :
  ModeSelectionScreen.handle s k = Continue s' →
  ModeSelectionScreen.modes s' = ModeSelectionScreen.modes s.
Proof.
  unfold ModeSelectionScreen.handle, ModeSelectionScreen.move.
  repeat (case_match; try discriminate); by intros [= <-].
Qed.

Lemma mode_handle_returns b s k v :
  ModeSelectionScreen.modes s = ModeSelectionScreen.modes (ModeSelectionScreen.init b) →
  ModeSelectionScreen.handle s k = Return v →
  v ∈ [PStr "new"; PStr "existing"; PStr "back"; PStr "quit"].
Proof.
  intros Hm. unfold ModeSelectionScreen.handle, ModeSelectionScreen.move.
  destruct (bool_decide (k = LF) || bool_decide (k = CR)).
  - destruct (py_index _ _) as [[[mode_id name] desc]|] eqn:Ei; [|discriminate].
    apply py_index_elem in Ei. rewrite Hm in Ei. simpl in Ei.
    intros [= <-]. apply list_elem_of_In in Ei. simpl in Ei.
    destruct Ei as [[= <- _ _]|[[= <- _ _]|[]]]; apply list_elem_of_In; simpl; auto.
  - repeat (case_match; try discriminate); intros [= <-]; apply list_elem_of_In; simpl; auto.
Qed.

(** X8.  The mode screen returns one of four strings and can return
    each of them: the id of a mode, new or existing, on ENTER; back on
    escape; quit on q. *)
Theorem mode_show_vocabulary (b : BaseScreen.t) (v : pyval) :
  (∃ evs, returned (ModeSelectionScreen.show (ModeSelectionScreen.init b) evs) = Some v)
  ↔ v ∈ [PStr "new"; PStr "existing"; PStr "back"; PStr "quit"].
Proof.
  split.
  - intros [evs Hv]. revert Hv. unfold ModeSelectionScreen.show.
    set (P := λ s, ModeSelectionScreen.modes s
                   = ModeSelectionScreen.modes (ModeSelectionScreen.init b)).
    assert (Hstep : ∀ s k s', P s → ModeSelectionScreen.handle s k = Continue s' → P s')
      by (intros s k s' Hs Hk; unfold P; by rewrite (mode_modes_step _ _ _ Hk)).
    apply (key_loop_returned _ _ P Hstep
             (λ v, v ∈ [PStr "new"; PStr "existing"; PStr "back"; PStr "quit"])).
    + intros s k w Hs. by apply (mode_handle_returns b).
    + done.
  - intros Hv. apply list_elem_of_In in Hv. simpl in Hv.
    destruct Hv as [<-|[<-|[<-|[<-|[]]]]].
    + by exists [press LF].
    + by exists [press "j"; press LF].
    + by exists [press "escape"].
    + by exists [press "q"].
Qed.

(** X9.  The placeholder screens' results.  Settings returns next, back
    or quit; validation returns valid, back or quit; confirmation
    returns proceed, back or quit; completion returns quit.  Each of
    these values can be returned, and nothing else can. *)
Theorem placeholder_show_vocabulary {St Info}
    (s : SettingsScreen.t St) (c : ConfirmationScreen.t St)
    (x : ValidationScreen.t St Info) (f : CompletionScreen.t St) (v : pyval) :
  ((∃ evs, returned (SettingsScreen.show s evs) = Some v)
   ↔ v ∈ [PStr "next"; PStr "back"; PStr "quit"])
  ∧ ((∃ evs, returned (ValidationScreen.show x evs) = Some v)
     ↔ v ∈ [PStr "valid"; PStr "back"; PStr "quit"])
  ∧ ((∃ evs, returned (ConfirmationScreen.show c evs) = Some v)
     ↔ v ∈ [PStr "proceed"; PStr "back"; PStr "quit"])
  ∧ ((∃ evs, returned (CompletionScreen.show f evs) = Some v) ↔ v = PStr "quit").
Proof.
  split; [|split; [|split]]; split.
  - intros [evs Hv]. revert Hv. unfold SettingsScreen.show.
    apply (key_loop_returns _ _ (λ v, v ∈ [PStr "next"; PStr "back"; PStr "quit"])).
    clear. intros s k v. unfold SettingsScreen.handle.
    repeat case_match; try discriminate; intros [= <-]; apply list_elem_of_In; simpl; auto.
  - intros Hv. apply list_elem_of_In in Hv. simpl in Hv.
    destruct Hv as [<-|[<-|[<-|[]]]];
      [by exists [press LF] | by exists [press "escape"] | by exists [press "q"]].
  - intros [evs Hv]. revert Hv. unfold ValidationScreen.show.
    apply (key_loop_returns _ _ (λ v, v ∈ [PStr "valid"; PStr "back"; PStr "quit"])).
    clear. intros s k v. unfold ValidationScreen.handle.
    repeat case_match; try discriminate; intros [= <-]; apply list_elem_of_In; simpl; auto.
  - intros Hv. apply list_elem_of_In in Hv. simpl in Hv.
    destruct Hv as [<-|[<-|[<-|[]]]];
      [by exists [press LF] | by exists [press "escape"] | by exists [press "q"]].
  - intros [evs Hv]. revert Hv. unfold ConfirmationScreen.show.
    apply (key_loop_returns _ _ (λ v, v ∈ [PStr "proceed"; PStr "back"; PStr "quit"])).
    clear. intros s k v. unfold ConfirmationScreen.handle.
    repeat case_match; try discriminate; intros [= <-]; apply list_elem_of_In; simpl; auto.
  - intros Hv. apply list_elem_of_In in Hv. simpl in Hv.
    destruct Hv as [<-|[<-|[<-|[]]]];
      [by exists [press "y"] | by exists [press "n"] | by exists [press "q"]].
  - intros [[|ev rest] Hv]; [discriminate|]. simpl in Hv. congruence.
  - intros ->. by exists [press LF].
Qed.



(** ** Navigation as a whole *)

Lemma mode_nav_flip b s k :
  ModeSelectionScreen.modes s = ModeSelectionScreen.modes (ModeSelectionScreen.init b) →
  ModeSelectionScreen.selected s = 0 ∨ ModeSelectionScreen.selected s = 1 →
  k ∈ ["j"; "down"; "k"; "up"] →
  ModeSelectionScreen.handle s k
  = Continue (ModeSelectionScreen.with_selected s (1 - ModeSelectionScreen.selected s)).
Proof.
  intros Hm Hsel Hk.
  assert (Hmove : ∀ delta, delta = 1 ∨ delta = -1 →
            ModeSelectionScreen.move s delta
            = Continue (ModeSelectionScreen.with_selected s (1 - ModeSelectionScreen.selected s))).
  { intros delta Hdelta. unfold ModeSelectionScreen.move. rewrite Hm. simpl.
    unfold py_mod. simpl. do 2 f_equal.
    destruct Hsel as [-> | ->], Hdelta as [-> | ->]; reflexivity. }
  apply list_elem_of_In in Hk. simpl in Hk.
  destruct Hk as [<-|[<-|[<-|[<-|[]]]]].
  - change (ModeSelectionScreen.handle s "j") with (ModeSelectionScreen.move s 1). auto.
  - change (ModeSelectionScreen.handle s "down") with (ModeSelectionScreen.move s 1). auto.
  - change (ModeSelectionScreen.handle s "k") with (ModeSelectionScreen.move s (-1)). auto.
  - change (ModeSelectionScreen.handle s "up") with (ModeSelectionScreen.move s (-1)). auto.
Qed.

Lemma mode_enter_after_keys b (keys : list string) rest :
  Forall (λ k, k ∈ ["j"; "down"; "k"; "up"]) keys →
  ∀ s out,
    ModeSelectionScreen.modes s = ModeSelectionScreen.modes (ModeSelectionScreen.init b) →
    ModeSelectionScreen.selected s = 0 ∨ ModeSelectionScreen.selected s = 1 →
    returned (key_loop ModeSelectionScreen.draw ModeSelectionScreen.handle s
                (map press keys ++ press LF :: rest) out)
    = Some (PStr (if bool_decide (ModeSelectionScreen.selected s = 0) then
                    if Nat.even (length keys) then "new" else "existing"
                  else if Nat.even (length keys) then "existing" else "new")).
Proof.
  induction 1 as [|k keys Hk _ IH]; intros s out Hm Hsel.
  - simpl. unfold ModeSelectionScreen.handle. simpl.
    rewrite Hm. destruct Hsel as [-> | ->]; reflexivity.
  - cbn [map app key_loop ModeSelectionScreen.draw].
    change (BaseScreen.wait_for_key (press k)) with k.
    rewrite (mode_nav_flip b s k Hm Hsel Hk).
    rewrite IH; [|done|simpl; lia].
    cbn [length]. rewrite Nat.even_succ, <- Nat.negb_even. simpl.
    destruct Hsel as [-> | ->], (Nat.even (length keys)); reflexivity.
Qed.

(** X11.  With its two modes the mode screen only counts navigation
    keys: after any run of j, down, k and up from the start, ENTER
    returns new when their number is even and existing when it is odd,
    and the events after that ENTER do not matter. *)
Theorem mode_enter_after_navigation (b : BaseScreen.t) (keys : list string)
    (rest : list event) :
  Forall (λ k, k ∈ ["j"; "down"; "k"; "up"]) keys →
  returned (ModeSelectionScreen.show (ModeSelectionScreen.init b)
              (map press keys ++ press LF :: rest))
  = Some (PStr (if Nat.even (length keys) then "new" else "existing")).
Proof.
  intros Hkeys. unfold ModeSelectionScreen.show.
  rewrite (mode_enter_after_keys b keys rest Hkeys); [done|done|by left].
Qed.

Lemma mode_enter_after_navigation_witness :
  Forall (λ k, k ∈ ["j"; "down"; "k"; "up"]) ["down"; "up"; "k"]
  ∧ returned (ModeSelectionScreen.show (ModeSelectionScreen.init term_80x24)
                (map press ["down"; "up"; "k"] ++ [press LF; press "q"]))
    = Some (PStr "existing").
Proof.
  assert (Hkeys : Forall (λ k, k ∈ ["j"; "down"; "k"; "up"]) ["down"; "up"; "k"]).
  { repeat apply Forall_cons_2; try apply Forall_nil_2;
      apply list_elem_of_In; simpl; auto. }
  split; [exact Hkeys|].
  exact (mode_enter_after_navigation term_80x24 ["down"; "up"; "k"] [press "q"] Hkeys).
Defined.

Lemma with_cursor_same d :
  DeviceSelectionScreen.with_cursor d (DeviceSelectionScreen.cursor d) = d.
Proof. by destruct d. Qed.

Lemma with_cursor_twice d c c' :
  DeviceSelectionScreen.with_cursor (DeviceSelectionScreen.with_cursor d c) c'
  = DeviceSelectionScreen.with_cursor d c'.
Proof. reflexivity. Qed.

Lemma device_move_mod d delta :
  DeviceSelectionScreen.device_list d ≠ [] →
  DeviceSelectionScreen.move d delta
  = Continue (DeviceSelectionScreen.with_cursor d
                ((DeviceSelectionScreen.cursor d + delta)
                   `mod` Z.of_nat (length (DeviceSelectionScreen.device_list d)))).
Proof.
  intros Hne. unfold DeviceSelectionScreen.move.
  destruct (DeviceSelectionScreen.device_list d) as [|d0 l] eqn:El; [done|].
  unfold py_mod. rewrite bool_decide_eq_false_2 by (simpl; lia). done.
Qed.

(** X12.  On a device screen with a non-empty device list, down and up
    undo each other: j then k, and k then j, leave the screen exactly
    as it was. *)
Theorem device_down_up_cancel (d : DeviceSelectionScreen.t) :
  device_reachable d →
  DeviceSelectionScreen.device_list d ≠ [] →
  (∃ d1, DeviceSelectionScreen.handle d "j" = Continue d1
         ∧ DeviceSelectionScreen.handle d1 "k" = Continue d)
  ∧ (∃ d1, DeviceSelectionScreen.handle d "k" = Continue d1
           ∧ DeviceSelectionScreen.handle d1 "j" = Continue d).
Proof.
  intros Hr Hne. pose proof (device_reachable_cursor d Hr Hne) as Hc.
  set (n := Z.of_nat (length (DeviceSelectionScreen.device_list d))) in *.
  assert (Hback : ∀ delta delta', delta + delta' = 0 →
            ((DeviceSelectionScreen.cursor d + delta) `mod` n + delta') `mod` n
            = DeviceSelectionScreen.cursor d).
  { intros delta delta' Hzero. rewrite Zplus_mod_idemp_l.
    replace (DeviceSelectionScreen.cursor d + delta + delta')
      with (DeviceSelectionScreen.cursor d) by lia.
    by apply Z.mod_small. }
  split; eexists; (split; [apply (device_move_mod d _ Hne)|]).
  - change (DeviceSelectionScreen.handle ?x "k") with (DeviceSelectionScreen.move x (-1)).
    rewrite device_move_mod by done. simpl. fold n.
    rewrite (Hback 1 (-1) eq_refl). by rewrite with_cursor_twice, with_cursor_same.
  - change (DeviceSelectionScreen.handle ?x "j") with (DeviceSelectionScreen.move x 1).
    rewrite device_move_mod by done. simpl. fold n.
    rewrite (Hback (-1) 1 eq_refl). by rewrite with_cursor_twice, with_cursor_same.
Qed.

Lemma device_down_up_cancel_witness :
  let d := DeviceSelectionScreen.init term_80x24 two_drives [] in
  device_reachable d
  ∧ DeviceSelectionScreen.device_list d ≠ []
  ∧ ∃ d1, DeviceSelectionScreen.handle d "k" = Continue d1
          ∧ DeviceSelectionScreen.handle d1 "j" = Continue d.
Proof.
  intros d.
  assert (Hr : device_reachable d)
    by (exists term_80x24, two_drives, [], []; vm_compute; reflexivity).
  assert (Hne : DeviceSelectionScreen.device_list d ≠ []) by (vm_compute; discriminate).
  split; [exact Hr|]. split; [exact Hne|].
  exact (proj2 (device_down_up_cancel d Hr Hne)).
Defined.

Lemma device_presses_down devs sel0 (i : nat) :
  ∀ d out,
    device_inv devs sel0 d →
    DeviceSelectionScreen.device_list d ≠ [] →
    let o := key_loop DeviceSelectionScreen.draw DeviceSelectionScreen.handle d
               (replicate i (press "j")) out in
    final o = DeviceSelectionScreen.with_cursor d
                ((DeviceSelectionScreen.cursor d + Z.of_nat i)
                   `mod` Z.of_nat (length (DeviceSelectionScreen.device_list d)))
    ∧ returned o = None ∧ raised o = None.
Proof.
  induction i as [|i IH]; intros d out Hinv Hne o; subst o.
  - pose proof (device_inv_draw _ _ _ Hinv) as Hdraw.
    pose proof (proj2 (proj2 (proj2 Hinv)) Hne) as Hc.
    simpl. destruct (DeviceSelectionScreen.draw d) as [cs e]. simpl in Hdraw. subst e.
    simpl. rewrite Z.add_0_r, Z.mod_small by done. by rewrite with_cursor_same.
  - pose proof (device_inv_draw _ _ _ Hinv) as Hdraw.
    cbn [replicate key_loop].
    destruct (DeviceSelectionScreen.draw d) as [cs e]. simpl in Hdraw. subst e.
    change (DeviceSelectionScreen.handle d (BaseScreen.wait_for_key (press "j")))
      with (DeviceSelectionScreen.move d 1).
    pose proof (device_move_mod d 1 Hne) as Hmove. rewrite Hmove.
    assert (Hinv' : device_inv devs sel0
              (DeviceSelectionScreen.with_cursor d
                 ((DeviceSelectionScreen.cursor d + 1)
                    `mod` Z.of_nat (length (DeviceSelectionScreen.device_list d)))))
      by (apply (device_inv_step devs sel0 d "j"); [done|exact Hmove]).
    destruct (IH _ (out ++ cs) Hinv' Hne) as (Hf & Hr & Hx).
    split; [|done]. rewrite Hf. simpl. rewrite with_cursor_twice. f_equal.
    rewrite Zplus_mod_idemp_l. f_equal. lia.
Qed.

(** X13.  On a device screen with a non-empty device list, pressing
    down as many times as there are devices walks the cursor once round
    the list: the screen ends exactly as it began, nothing is raised
    and [show] is still waiting for a key. *)
Theorem device_full_circle (d : DeviceSelectionScreen.t) :
  device_reachable d →
  DeviceSelectionScreen.device_list d ≠ [] →
  let o := DeviceSelectionScreen.show d
             (replicate (length (DeviceSelectionScreen.device_list d)) (press "j")) in
  final o = d ∧ returned o = None ∧ raised o = None.
Proof.
  intros Hr Hne o. subst o.
  destruct (device_reachable_inv d Hr) as [sel0 Hinv].
  pose proof (device_reachable_cursor d Hr Hne) as Hc.
  destruct (device_presses_down _ sel0 (length (DeviceSelectionScreen.device_list d))
              d [] Hinv Hne) as (Hf & Hret & Hx).
  split; [|done]. unfold DeviceSelectionScreen.show. rewrite Hf.
  set (n := Z.of_nat (length (DeviceSelectionScreen.device_list d))) in *.
  assert (Hmod : (DeviceSelectionScreen.cursor d + n) `mod` n = DeviceSelectionScreen.cursor d).
  { replace (DeviceSelectionScreen.cursor d + n)
      with (DeviceSelectionScreen.cursor d + 1 * n) by lia.
    rewrite Z.mod_add by lia. by apply Z.mod_small. }
  rewrite Hmod. apply with_cursor_same.
Qed.

Lemma device_full_circle_witness :
  let d := DeviceSelectionScreen.init term_80x24 two_drives ["sdb"] in
  device_reachable d
  ∧ DeviceSelectionScreen.device_list d ≠ []
  ∧ final (DeviceSelectionScreen.show d [press "j"; press "j"]) = d.
Proof.
  intros d.
  assert (Hr : device_reachable d)
    by (exists term_80x24, two_drives, ["sdb"], []; vm_compute; reflexivity).
  assert (Hne : DeviceSelectionScreen.device_list d ≠ []) by (vm_compute; discriminate).
  split; [exact Hr|]. split; [exact Hne|].
  exact (proj1 (device_full_circle d Hr Hne)).
Defined.

(** ** The device list and the drives returned *)

(** X14.  The constructor's device list is the keys of [devices], each
    exactly once, in ascending order: every name is at most the next
    one, and the list is as long as the mapping is large. *)
Theorem device_list_sorted_keys b (devs : gmap string DeviceSelectionScreen.dev_info)
    (sel : list string) :
  let l := DeviceSelectionScreen.device_list (DeviceSelectionScreen.init b devs sel) in
  Sorted str_le l
  ∧ NoDup l
  ∧ (∀ d, d ∈ l ↔ is_Some (devs !! d))
  ∧ length l = size devs.
Proof.
  intros l. subst l. simpl.
  split; [apply Sorted_merge_sort; apply _|].
  split; [rewrite merge_sort_Permutation; apply NoDup_elements|].
  split.
  - intros d. rewrite merge_sort_Permutation, elem_of_elements. apply elem_of_dom.
  - rewrite merge_sort_Permutation. rewrite <- size_dom. reflexivity.
Qed.

Lemma key_loop_returned_final {S : Type} (draw : S → list call * option exn)
    (handle : S → string → step S) evs :
  ∀ s out v,
    returned (key_loop draw handle s evs out) = Some v →
    ∃ k, handle (final (key_loop draw handle s evs out)) k = Return v.
Proof.
  induction evs as [|ev rest IH]; intros s out v; simpl.
  - destruct (draw s) as [cs [e|]]; discriminate.
  - destruct (draw s) as [cs [e|]]; [discriminate|].
    destruct (handle s (BaseScreen.wait_for_key ev)) as [w|s'|e] eqn:Hh; simpl.
    + intros [= <-]. eauto.
    + apply IH.
    + discriminate.
Qed.

(** X15.  If the initial [selected_drives] names only keys of
    [devices], the list of drives a device screen returns is never
    empty, holds no drive twice, and holds only keys of [devices]. *)
Theorem device_show_returns_known_drives b devs (sel : list string) evs (l : list string) :
  (∀ d, d ∈ sel → d ∈ dom devs) →
  returned (DeviceSelectionScreen.show (DeviceSelectionScreen.init b devs sel) evs)
  = Some (PList l) →
  l ≠ [] ∧ NoDup l ∧ ∀ d, d ∈ l → is_Some (devs !! d).
Proof.
  intros Hsel Hret.
  pose proof (device_selection_bound b devs sel evs) as Hbound.
  unfold DeviceSelectionScreen.show in *.
  destruct (key_loop_returned_final _ _ _ _ _ _ Hret) as [k Hk].
  set (s := final _) in *. clearbody s.
  assert (Hl : l = elements (DeviceSelectionScreen.selected_drives s)
               ∧ DeviceSelectionScreen.selected_drives s ≠ ∅).
  { revert Hk. unfold DeviceSelectionScreen.handle, DeviceSelectionScreen.toggle,
      DeviceSelectionScreen.move.
    repeat (case_match; try discriminate). intros [= <-]. split; [done|].
    intros Hempty.
    match goal with H : bool_decide _ = true |- _ =>
      apply bool_decide_eq_true_1 in H; rewrite Hempty, size_empty in H; lia end. }
  destruct Hl as [-> Hne]. split; [|split].
  - intros Hnil. apply Hne. apply leibniz_equiv. by apply elements_empty_inv.
  - apply NoDup_elements.
  - intros d Hd. apply elem_of_elements in Hd. apply Hbound in Hd.
    apply elem_of_dom. apply elem_of_union in Hd as [Hd|Hd]; [|done].
    apply Hsel. by apply elem_of_list_to_set in Hd.
Qed.

Lemma device_show_returns_known_drives_witness :
  (∀ d, d ∈ ["sdb"] → d ∈ dom two_drives)
  ∧ returned (DeviceSelectionScreen.show
                (DeviceSelectionScreen.init term_80x24 two_drives ["sdb"])
                [press " "; press CR])
    = Some (PList ["sda"; "sdb"])
  ∧ NoDup ["sda"; "sdb"].
Proof.
  assert (Hsel : ∀ d, d ∈ ["sdb"] → d ∈ dom two_drives).
  { intros d Hd. apply list_elem_of_singleton in Hd. subst d.
    apply elem_of_dom. eexists. reflexivity. }
  assert (Hret : returned (DeviceSelectionScreen.show
                             (DeviceSelectionScreen.init term_80x24 two_drives ["sdb"])
                             [press " "; press CR])
                 = Some (PList ["sda"; "sdb"])) by (vm_compute; reflexivity).
  split; [exact Hsel|]. split; [exact Hret|].
  exact (proj1 (proj2 (device_show_returns_known_drives _ _ _ _ _ Hsel Hret))).
Defined.

(** ** Events read and events left *)

(** X16.  A key loop reads no further than the key that makes it
    return.  When a loop returns, the events it was given are the ones
    it read, ending with the key its handler returned on, followed by
    the events it leaves; at least one event was read, and nothing
    about the result depends on the events left.  Every looping [show]
    is such a loop. *)
Theorem key_loop_reads_up_to_return {S : Type} (draw : S → list call * option exn)
    (handle : S → string → step S) (evs : list event) :
  ∀ s out v s' rest out',
    key_loop draw handle s evs out = Returned v s' rest out' →
    ∃ read k,
      evs = read ++ k :: rest
      ∧ handle s' (BaseScreen.wait_for_key k) = Return v
      ∧ ∀ more, key_loop draw handle s (read ++ k :: more) out = Returned v s' more out'.
Proof.
  induction evs as [|ev evs IH]; intros s out v s' rest out'; simpl.
  - destruct (draw s) as [cs [e|]]; discriminate.
  - destruct (draw s) as [cs [e|]] eqn:Ed; [discriminate|].
    destruct (handle s (BaseScreen.wait_for_key ev)) as [w|s1|e] eqn:Hh.
    + intros [= <- <- <- <-]. exists [], ev. split; [done|]. split; [done|].
      intros more. simpl. by rewrite Ed, Hh.
    + intros Hret. destruct (IH _ _ _ _ _ _ Hret) as (read & k & -> & Hk & Hmore).
      exists (ev :: read), k. split; [done|]. split; [done|].
      intros more. simpl. rewrite Ed, Hh. apply Hmore.
    + discriminate.
Qed.

Lemma key_loop_reads_up_to_return_witness :
  let d := DeviceSelectionScreen.init term_80x24 two_drives [] in
  let evs := [press "j"; press " "; press LF; press "q"] in
  ∃ read k, evs = read ++ k :: [press "q"]
            ∧ DeviceSelectionScreen.handle
                (final (DeviceSelectionScreen.show d evs)) (BaseScreen.wait_for_key k)
              = Return (PList ["sdb"]).
Proof.
  intros d evs.
  destruct (DeviceSelectionScreen.show d evs) as [v s' rest out'|s' out'|e s' out'] eqn:Hshow;
    [|vm_compute in Hshow; discriminate Hshow..].
  assert (Hv : v = PList ["sdb"] ∧ rest = [press "q"])
    by (vm_compute in Hshow; injection Hshow as <- _ <- _; done).
  destruct Hv as [-> ->].
  destruct (key_loop_reads_up_to_return _ _ _ _ _ _ _ _ _ Hshow) as (read & k & Hevs & Hk & _).
  exists read, k. split; [exact Hevs|exact Hk].
Defined.

Lemma key_loop_resume {S : Type} (draw : S → list call * option exn)
    (handle : S → string → step S) (evs more : list event) :
  ∀ s out s' out' out2,
    key_loop draw handle s evs out = Blocked s' out' →
    returned (key_loop draw handle s (evs ++ more) out)
    = returned (key_loop draw handle s' more out2)
    ∧ final (key_loop draw handle s (evs ++ more) out)
      = final (key_loop draw handle s' more out2)
    ∧ raised (key_loop draw handle s (evs ++ more) out)
      = raised (key_loop draw handle s' more out2).
Proof.
  induction evs as [|ev evs IH]; intros s out s' out' out2.
  - simpl. destruct (draw s) as [cs [e|]] eqn:Ed; [discriminate|].
    intros [= <- _]. apply key_loop_returned_out.
  - simpl. destruct (draw s) as [cs [e|]] eqn:Ed; [discriminate|].
    destruct (handle s (BaseScreen.wait_for_key ev)) as [w|s1|e] eqn:Hh; try discriminate.
    apply IH.
Qed.

(** X17.  The device screen keeps no state but its fields.  If [show]
    has read some events and is waiting for more, then what it goes on
    to do with further events (what it returns or raises, and the state
    it ends in) is what a fresh [show] from the state reached does with
    them. *)
Theorem device_show_resumes (d d' : DeviceSelectionScreen.t) (evs more : list event)
    (out : list call) :
  DeviceSelectionScreen.show d evs = Blocked d' out →
  returned (DeviceSelectionScreen.show d (evs ++ more))
  = returned (DeviceSelectionScreen.show d' more)
  ∧ final (DeviceSelectionScreen.show d (evs ++ more))
    = final (DeviceSelectionScreen.show d' more)
  ∧ raised (DeviceSelectionScreen.show d (evs ++ more))
    = raised (DeviceSelectionScreen.show d' more).
Proof. unfold DeviceSelectionScreen.show. apply key_loop_resume. Qed.

Lemma device_show_resumes_witness :
  let d := DeviceSelectionScreen.init term_80x24 two_drives [] in
  let d' := final (DeviceSelectionScreen.show d [press "j"; press " "]) in
  (∃ out, DeviceSelectionScreen.show d [press "j"; press " "] = Blocked d' out)
  ∧ returned (DeviceSelectionScreen.show d ([press "j"; press " "] ++ [press CR]))
    = returned (DeviceSelectionScreen.show d' [press CR]).
Proof.
  intros d d'.
  destruct (DeviceSelectionScreen.show d [press "j"; press " "])
    as [v s1 rest out|s1 out|e s1 out] eqn:Hshow;
    [vm_compute in Hshow; discriminate Hshow| |vm_compute in Hshow; discriminate Hshow].
  simpl in d'. subst d'.
  split; [by exists out|].
  exact (proj1 (device_show_resumes d s1 [press "j"; press " "] [press CR] out Hshow)).
Defined.

(** ** Frames *)

Lemma count_calls_app p (a b : list call) :
  count_calls p (a ++ b) = (count_calls p a + count_calls p b)%nat.
Proof. induction a as [|c a IH]; simpl; [done|]. rewrite IH. lia. Qed.

Lemma draw_devices_count p self y devs :
  (∀ r g b, p (set_fg_rgb8 r g b) = false) →
  (∀ r x s, p (putstr_yx r x s) = false) →
  p set_fg_default = false →
  ∀ i, count_calls p (DeviceSelectionScreen.draw_devices self y i devs).1 = 0%nat.
Proof.
  intros Hfg Hput Hdef. induction devs as [|dev rest IH]; intros i; simpl; [done|].
  destruct (DeviceSelectionScreen.devices self !! dev) as [info|]; [|done].
  specialize (IH (i + 1)).
  destruct (DeviceSelectionScreen.draw_devices self y (i + 1) rest) as [cs e].
  simpl in *. unfold BaseScreen.fg. by rewrite Hfg, Hput, Hdef, IH.
Qed.

Lemma draw_centered_text_count p b y text color :
  (∀ r g b, p (set_fg_rgb8 r g b) = false) →
  (∀ r x s, p (putstr_yx r x s) = false) →
  p set_fg_default = false →
  count_calls p (BaseScreen.draw_centered_text b y text color) = 0%nat.
Proof.
  intros Hfg Hput Hdef. unfold BaseScreen.draw_centered_text, BaseScreen.fg.
  cbn [count_calls]. by rewrite Hfg, Hput, Hdef.
Qed.

Lemma device_draw_one_frame devs sel0 s :
  device_inv devs sel0 s →
  ∃ cs, DeviceSelectionScreen.draw s = (cs, None)
        ∧ count_calls is_render cs = 1%nat ∧ count_calls is_erase cs = 1%nat.
Proof.
  intros Hinv. pose proof (device_inv_draw _ _ _ Hinv) as Hdraw. revert Hdraw.
  assert (Hlist : ∃ cs e,
            match DeviceSelectionScreen.device_list s with
            | [] => (BaseScreen.draw_centered_text (DeviceSelectionScreen.base s) 6
                       "No drives detected!" 0xff0000, None)
            | _ :: _ => DeviceSelectionScreen.draw_devices s 6 0
                          (DeviceSelectionScreen.device_list s)
            end = (cs, e)
            ∧ count_calls is_render cs = 0%nat ∧ count_calls is_erase cs = 0%nat).
  { destruct (DeviceSelectionScreen.device_list s) as [|d0 l].
    - do 2 eexists. split; [reflexivity|].
      split; by apply draw_centered_text_count.
    - pose proof (draw_devices_count is_render s 6 (d0 :: l)
                    ltac:(done) ltac:(done) ltac:(done) 0) as Hr.
      pose proof (draw_devices_count is_erase s 6 (d0 :: l)
                    ltac:(done) ltac:(done) ltac:(done) 0) as He.
      destruct (DeviceSelectionScreen.draw_devices s 6 0 (d0 :: l)) as [cs e].
      by exists cs, e. }
  destruct Hlist as (cs & e & Hl & Hr & He).
  unfold DeviceSelectionScreen.draw. rewrite Hl. cbv beta iota zeta.
  destruct e as [e|]; [discriminate|]. intros _.
  eexists. split; [reflexivity|].
  rewrite !count_calls_app, Hr, He.
  rewrite !draw_centered_text_count by done. split; reflexivity.
Qed.

Lemma device_loop_frames devs sel0 evs :
  ∀ s out,
    device_inv devs sel0 s →
    match key_loop DeviceSelectionScreen.draw DeviceSelectionScreen.handle s evs out with
    | Returned _ _ rest out' =>
        (length rest < length evs)%nat
        ∧ ∀ p, p = is_render ∨ p = is_erase →
               count_calls p out' = (count_calls p out + (length evs - length rest))%nat
    | Blocked _ out' =>
        ∀ p, p = is_render ∨ p = is_erase →
             count_calls p out' = (count_calls p out + S (length evs))%nat
    | Raised _ _ _ => False
    end.
Proof.
  induction evs as [|ev evs IH]; intros s out Hinv;
    destruct (device_draw_one_frame _ _ _ Hinv) as (cs & Hd & Hr & He); simpl; rewrite Hd.
  - intros p [-> | ->]; rewrite count_calls_app; lia.
  - destruct (DeviceSelectionScreen.handle s (BaseScreen.wait_for_key ev)) as [v|s1|e] eqn:Hh.
    + split; [lia|]. intros p [-> | ->]; rewrite count_calls_app; lia.
    + specialize (IH s1 (out ++ cs) (device_inv_step _ _ _ _ _ Hinv Hh)).
      destruct (key_loop _ _ s1 evs (out ++ cs)) as [v s2 rest out'|s2 out'|e s2 out'].
      * destruct IH as [Hlen IH]. split; [lia|].
        intros p Hp. rewrite (IH p Hp), count_calls_app.
        destruct Hp as [-> | ->]; lia.
      * intros p Hp. rewrite (IH p Hp), count_calls_app.
        destruct Hp as [-> | ->]; lia.
      * done.
    + by apply (device_inv_no_raise _ _ _ _ _ Hinv) in Hh.
Qed.

(** X18.  The device screen is redrawn for every key it reads.  From
    the constructor, [show] erases and renders the plane once before
    each key read: when it returns, as many times as it read events;
    while it waits, once more than that.  It never raises. *)
Theorem device_show_frames b devs (sel : list string) (evs : list event) :
  match DeviceSelectionScreen.show (DeviceSelectionScreen.init b devs sel) evs with
  | Returned _ _ rest out =>
      (length rest < length evs)%nat
      ∧ count_calls is_render out = (length evs - length rest)%nat
      ∧ count_calls is_erase out = (length evs - length rest)%nat
  | Blocked _ out =>
      count_calls is_render out = S (length evs)
      ∧ count_calls is_erase out = S (length evs)
  | Raised _ _ _ => False
  end.
Proof.
  unfold DeviceSelectionScreen.show.
  pose proof (device_loop_frames devs (list_to_set sel) evs _ []
                (device_inv_init b devs sel)) as H.
  destruct (key_loop _ _ _ evs []) as [v s rest out|s out|e s out]; [| |done].
  - destruct H as [Hlen H]. split; [done|].
    split; [apply (H is_render)|apply (H is_erase)]; auto.
  - split; [apply (H is_render)|apply (H is_erase)]; auto.
Qed.

(** ** Ways out *)

(** X19.  The device and mode screens can always be left at once: in
    any state they can be in, q makes [show] return quit and escape
    makes it return back, on the very next key, with the screen
    unchanged and the later events unread. *)
Theorem quit_and_back_always_work (m : ModeSelectionScreen.t) (d : DeviceSelectionScreen.t)
    (rest : list event) :
  device_reachable d →
  Forall (λ kv,
      ModeSelectionScreen.show m (press kv.1 :: rest)
      = Returned (PStr kv.2) m rest (ModeSelectionScreen.draw m).1
      ∧ DeviceSelectionScreen.show d (press kv.1 :: rest)
        = Returned (PStr kv.2) d rest (DeviceSelectionScreen.draw d).1)
    [("q", "quit"); ("Q", "quit"); ("escape", "back")].
Proof.
  intros [sel0 Hinv]%device_reachable_inv.
  pose proof (device_inv_draw _ _ _ Hinv) as Hdraw.
  unfold DeviceSelectionScreen.show, ModeSelectionScreen.show.
  repeat apply Forall_cons_2; try apply Forall_nil_2; simpl;
    destruct (DeviceSelectionScreen.draw d) as [cs e]; simpl in Hdraw; subst e; done.
Qed.

Lemma quit_and_back_always_work_witness :
  let d := DeviceSelectionScreen.init term_80x24 two_drives [] in
  device_reachable d
  ∧ returned (DeviceSelectionScreen.show d [press "escape"; press LF]) = Some (PStr "back").
Proof.
  intros d.
  assert (Hr : device_reachable d)
    by (exists term_80x24, two_drives, [], []; vm_compute; reflexivity).
  split; [exact Hr|].
  pose proof (quit_and_back_always_work (ModeSelectionScreen.init term_80x24) d [press LF] Hr)
    as H.
  apply Forall_cons_1 in H as [_ H]. apply Forall_cons_1 in H as [_ H].
  apply Forall_cons_1 in H as [[_ H] _]. simpl in H. by rewrite H.
Defined.

(** X20.  When there is a device to pick, the device screen can always
    be continued from: in any state it can be in with a non-empty
    device list, ENTER alone (if something is selected) or space then
    ENTER (if nothing is) makes [show] return a list of drives. *)
Theorem device_can_continue (d : DeviceSelectionScreen.t) :
  device_reachable d →
  DeviceSelectionScreen.device_list d ≠ [] →
  ∃ l, l ≠ []
       ∧ if bool_decide (DeviceSelectionScreen.selected_drives d = ∅)
         then returned (DeviceSelectionScreen.show d [press " "; press LF]) = Some (PList l)
         else returned (DeviceSelectionScreen.show d [press LF]) = Some (PList l).
Proof.
  intros Hr Hne. destruct (device_reachable_inv d Hr) as [sel0 Hinv].
  pose proof (device_inv_draw _ _ _ Hinv) as Hdraw.
  assert (Henter : ∀ s, device_inv (DeviceSelectionScreen.devices d) sel0 s →
            DeviceSelectionScreen.selected_drives s ≠ ∅ →
            ∀ out, returned (key_loop DeviceSelectionScreen.draw DeviceSelectionScreen.handle
                               s [press LF] out)
                   = Some (PList (elements (DeviceSelectionScreen.selected_drives s)))
                   ∧ elements (DeviceSelectionScreen.selected_drives s) ≠ []).
  { intros s Hs Hsel out.
    destruct (device_enter_step s (press LF) [] (or_introl eq_refl)
                (device_inv_draw _ _ _ Hs)) as [_ Hstep].
    destruct (Hstep Hsel) as [Hshow Hnil]. split; [|done].
    rewrite (proj1 (key_loop_returned_out _ _ [press LF] s out [])).
    unfold DeviceSelectionScreen.show in Hshow. by rewrite Hshow. }
  case_bool_decide as Hsel.
  - destruct (device_cursor_on_device d Hr Hne) as [dev Hdev].
    destruct (toggle_twice d dev Hdev) as (d1 & H1 & _ & Hflip & _ & _).
    assert (Hd1 : device_inv (DeviceSelectionScreen.devices d) sel0 d1)
      by (by apply (device_inv_step _ _ d " ")).
    assert (Hsel1 : DeviceSelectionScreen.selected_drives d1 ≠ ∅).
    { intros Hempty. rewrite Hempty, Hsel in Hflip.
      destruct Hflip as [_ Hflip]. by apply (not_elem_of_empty (C := gset string) dev), Hflip. }
    exists (elements (DeviceSelectionScreen.selected_drives d1)).
    unfold DeviceSelectionScreen.show. cbn [key_loop].
    destruct (DeviceSelectionScreen.draw d) as [cs e]. simpl in Hdraw. subst e.
    change (BaseScreen.wait_for_key (press " ")) with " ". rewrite H1.
    destruct (Henter d1 Hd1 Hsel1 ([] ++ cs)) as [Hret Hnil]. done.
  - exists (elements (DeviceSelectionScreen.selected_drives d)).
    destruct (Henter d Hinv Hsel []) as [Hret Hnil]. done.
Qed.

Lemma device_can_continue_witness :
  let d := DeviceSelectionScreen.init term_80x24 two_drives [] in
  device_reachable d
  ∧ DeviceSelectionScreen.device_list d ≠ []
  ∧ ∃ l, l ≠ []
         ∧ returned (DeviceSelectionScreen.show d [press " "; press LF]) = Some (PList l).
Proof.
  intros d.
  assert (Hr : device_reachable d)
    by (exists term_80x24, two_drives, [], []; vm_compute; reflexivity).
  assert (Hne : DeviceSelectionScreen.device_list d ≠ []) by (vm_compute; discriminate).
  split; [exact Hr|]. split; [exact Hne|].
  destruct (device_can_continue d Hr Hne) as (l & Hl & Hret).
  exists l. split; [exact Hl|]. exact Hret.
Defined.
